(** * Follower plugin (src/index.tsx): whitelist store, payload normalizer,
    notification gate, body formatting, context-menu patch, navigation,
    follow and unfollow, and the message, thread and profile handlers,
    embedded shallowly.

    Strings are [string] (one [ascii] per UTF-16 code unit, so the model
    covers the Latin-1 range of code units); integers are [Z]; the two
    process-wide caches [oldUsers] and [loggedMessages] are [gmap string _]
    holding their own entries, and are read by key through [record_read],
    which also answers the members a plain object inherits;
    JS objects whose key order is observable are association lists. Host
    collaborators (UserStore, MessageStore, the focused channel, the
    dynamically imported logger module) are fields of an explicit [Host]
    record. Effects are threaded through a small state-and-exception monad
    whose state carries the settings store, the caches and the trace of
    observable effects. *)

From Stdlib Require Import ZArith Ascii String.
From stdpp Require Import base tactics option list gmap strings pretty.

Local Open Scope Z_scope.

(** ** JavaScript string and array primitives used by the plugin *)

(** ECMAScript WhiteSpace and LineTerminator code units below 256, the set
    [String.prototype.trim] strips. *)
Definition is_white_space (c : ascii) : bool :=
  match c with
  | "009" | "010" | "011" | "012" | "013" | " " | "160" => true
  | _ => false
  end%char.

Fixpoint trimStart (s : string) : string :=
  match s with
  | EmptyString => EmptyString
  | String c r => if is_white_space c then trimStart r else s
  end.

Fixpoint trimEnd (s : string) : string :=
  match s with
  | EmptyString => EmptyString
  | String c r =>
      match trimEnd r with
      | EmptyString => if is_white_space c then EmptyString else String c EmptyString
      | r' => String c r'
      end
  end.

(** [s.trim()] *)
Definition trim (s : string) : string := trimEnd (trimStart s).

(** [s.split(",")]: the piece before the first comma and the remaining
    pieces; the result of [split] is never empty. *)
Fixpoint split_go (s : string) : string * list string :=
  match s with
  | EmptyString => (EmptyString, [])
  | String c r =>
      let '(h, t) := split_go r in
      if Ascii.eqb c ","%char then (EmptyString, h :: t) else (String c h, t)
  end.

Definition split_comma (s : string) : list string :=
  let '(h, t) := split_go s in h :: t.

(** [items.join(",")] *)
Fixpoint join_comma (items : list string) : string :=
  match items with
  | [] => ""
  | x :: rest =>
      match rest with
      | [] => x
      | _ :: _ => x +:+ "," +:+ join_comma rest
      end
  end.

(** [items.join(", ")] *)
Fixpoint join_comma_space (items : list string) : string :=
  match items with
  | [] => ""
  | x :: rest =>
      match rest with
      | [] => x
      | _ :: _ => x +:+ ", " +:+ join_comma_space rest
      end
  end.

(** [items.includes(id)] on an array of strings. *)
Definition includes (items : list string) (id : string) : bool :=
  bool_decide (id ∈ items).

(** [items.indexOf(id)]: first index, or -1. *)
Fixpoint indexOf (items : list string) (id : string) : Z :=
  match items with
  | [] => -1
  | x :: rest =>
      if decide (x = id) then 0
      else let i := indexOf rest id in if i =? -1 then -1 else i + 1
  end.

(** [items.splice(start, 1)], the array left behind. A negative [start]
    counts from the end, a [start] past the end removes nothing. *)
Definition splice1 (items : list string) (start : Z) : list string :=
  let len := Z.of_nat (length items) in
  let from := if start <? 0 then Z.max (len + start) 0 else Z.min start len in
  delete (Z.to_nat from) items.

(** [s.length] *)
Definition str_length (s : string) : Z := Z.of_nat (String.length s).

(** [s.substring(a, b)]: both ends clamped to [0, length], swapped when
    [a > b]. *)
Definition substring (s : string) (a b : Z) : string :=
  let len := str_length s in
  let a' := Z.min (Z.max a 0) len in
  let b' := Z.min (Z.max b 0) len in
  let from := Z.min a' b' in
  let to := Z.max a' b' in
  String.substring (Z.to_nat from) (Z.to_nat (to - from)) s.

(** Truthiness of an optional string: [undefined] and the empty string are
    falsy. *)
Definition truthy_str (o : option string) : bool :=
  match o with
  | Some s => negb (String.eqb s "")
  | None => false
  end.

(** ** JSON-like values carried by profile payloads *)

(** Objects keep their keys in enumeration order. Numbers are the integers
    the profile payloads carry (flags, colours, counters). *)
#[warnings="-register-all"]
Inductive value : Type :=
  | VUndefined
  | VNull
  | VBool (b : bool)
  | VNum (z : Z)
  | VStr (s : string)
  | VArr (elems : list value)
  | VObj (fields : list (string * value)).

(** The code units the class [[a-z]] matches under the [i] flag: without
    the [u] flag only the ASCII letters canonicalize into the class. *)
Definition is_letter (c : ascii) : bool :=
  let n := N_of_ascii c in
  ((97 <=? n) && (n <=? 122) || (65 <=? n) && (n <=? 90))%N.

(** [char.toUpperCase()] for a matched letter. *)
Definition toUpperCase (c : ascii) : ascii :=
  let n := N_of_ascii c in
  if ((97 <=? n) && (n <=? 122))%N then ascii_of_N (n - 32) else c.

(** [key.replace(/_([a-z])/gi, (_, char) => char.toUpperCase())]: matches
    are found left to right and do not overlap. *)
Fixpoint camelCaseKey (key : string) : string :=
  match key with
  | EmptyString => EmptyString
  | String c rest =>
      match rest with
      | String d rest' =>
          if Ascii.eqb c "_"%char && is_letter d
          then String (toUpperCase d) (camelCaseKey rest')
          else String c (camelCaseKey rest)
      | EmptyString => String c EmptyString
      end
  end.

(** A key is an array index when it is the canonical decimal numeral of an
    integer in [0, 2^32 - 2]; such keys are enumerated first, in ascending
    numeric order, before all other keys in insertion order. *)
Fixpoint digits_value (acc : N) (s : string) : option N :=
  match s with
  | EmptyString => Some acc
  | String c r =>
      match Ascii.is_nat c with
      | Some d => digits_value (10 * acc + N.of_nat d)%N r
      | None => None
      end
  end.

Definition array_index (k : string) : option N :=
  match k with
  | EmptyString => None
  | String "0" EmptyString => Some 0%N
  | String "0" _ => None
  | _ =>
      match digits_value 0 k with
      | Some n => if (n <=? 4294967294)%N then Some n else None
      | None => None
      end
  end.

Definition has_key (k : string) (o : list (string * value)) : bool :=
  bool_decide (k ∈ o.*1).

Fixpoint obj_replace (k : string) (v : value) (o : list (string * value))
  : list (string * value) :=
  match o with
  | [] => []
  | (k', v') :: o' =>
      if decide (k' = k) then (k, v) :: o' else (k', v') :: obj_replace k v o'
  end.

Fixpoint obj_insert_index (n : N) (k : string) (v : value)
    (o : list (string * value)) : list (string * value) :=
  match o with
  | [] => [(k, v)]
  | (k', v') :: o' =>
      match array_index k' with
      | Some m =>
          if (m <? n)%N then (k', v') :: obj_insert_index n k v o'
          else (k, v) :: o
      | None => (k, v) :: o
      end
  end.

(** [{ ...newObj, [k]: v }]: an existing key keeps its place and takes the
    new value; a new key is enumerated among the array indices when it is
    one, and last otherwise. *)
Definition obj_set (k : string) (v : value) (o : list (string * value))
  : list (string * value) :=
  if has_key k o then obj_replace k v o
  else match array_index k with
       | Some n => obj_insert_index n k v o
       | None => o ++ [(k, v)]
       end.

(** Own-property read [o[k]] on an object's fields. *)
Fixpoint obj_get (k : string) (o : list (string * value)) : value :=
  match o with
  | [] => VUndefined
  | (k', v) :: o' => if decide (k' = k) then v else obj_get k o'
  end.

(** [Object.keys(o)]: the field list of an object is kept in enumeration
    order and holds each key once. *)
Definition obj_keys (o : list (string * value)) : list string := o.*1.

(** [Object.keys(obj).reduce(...)] visits the fields in enumeration order
    and reads [obj[key]], the value paired with the key. *)
Fixpoint convertSnakeCaseToCamelCase (obj : value) : value :=
  match obj with
  | VArr elems => VArr (map convertSnakeCaseToCamelCase elems)
  | VObj fields =>
      VObj (fold_left
              (fun newObj kv =>
                 let camelCaseKey := camelCaseKey kv.1 in
                 let value := convertSnakeCaseToCamelCase kv.2 in
                 obj_set camelCaseKey value newObj)
              fields [])
  | _ => obj
  end.

(** [`${v}`]: ToString of a JSON-like value inside a template literal.
    A number is printed with its decimal digits, which is what a template
    literal prints for an integer of magnitude below 1e21; the exponent form
    of larger numbers is not modelled, and the properties below state the
    texts built from strings only. *)
Fixpoint toStr (v : value) : string :=
  match v with
  | VUndefined => "undefined"
  | VNull => "null"
  | VBool true => "true"
  | VBool false => "false"
  | VNum z => pretty z
  | VStr s => s
  | VArr elems =>
      join_comma
        (map (fun e => match e with
                       | VUndefined | VNull => ""
                       | _ => toStr e
                       end) elems)
  | VObj _ => "[object Object]"
  end.

(** Truthiness of a value ([!v] is its negation). *)
Definition truthy (v : value) : bool :=
  match v with
  | VUndefined | VNull => false
  | VBool b => b
  | VNum z => negb (z =? 0)
  | VStr s => negb (String.eqb s "")
  | VArr _ | VObj _ => true
  end.

(** ** Exceptions *)

Inductive Outcome (A : Type) : Type :=
  | Return (a : A)
  | Throw (err : string).
Arguments Return {A} a.
Arguments Throw {A} err.

Global Instance Outcome_ret : MRet Outcome := fun A a => Return a.
Global Instance Outcome_bind : MBind Outcome := fun A B f m =>
  match m with
  | Return a => f a
  | Throw e => Throw e
  end.

Definition TypeError_read (what prop : string) : string :=
  "TypeError: Cannot read properties of " +:+ what +:+ " (reading '" +:+ prop +:+ "')".

(** Property read [v[k]] or [v.k]. Reading from [undefined] or [null]
    throws; arrays and strings answer [length] and their indices; the
    members a value inherits from its prototype are functions, which are no
    JSON values and are read as [undefined] here. *)
Definition prop_read (v : value) (k : string) : Outcome value :=
  match v with
  | VUndefined => Throw (TypeError_read "undefined" k)
  | VNull => Throw (TypeError_read "null" k)
  | VObj fields => Return (obj_get k fields)
  | VArr elems =>
      if decide (k = "length") then Return (VNum (Z.of_nat (length elems)))
      else match array_index k with
           | Some n => Return (nth (N.to_nat n) elems VUndefined)
           | None => Return VUndefined
           end
  | VStr s =>
      if decide (k = "length") then Return (VNum (str_length s))
      else match array_index k with
           | Some n =>
               match String.get (N.to_nat n) s with
               | Some c => Return (VStr (String c EmptyString))
               | None => Return VUndefined
               end
           | None => Return VUndefined
           end
  | VBool _ | VNum _ => Return VUndefined
  end.

(** Optional chaining [v?.k]. *)
Definition prop_read_opt (v : value) (k : string) : value :=
  match prop_read v k with
  | Return r => r
  | Throw _ => VUndefined
  end.

(** [a === b] where [b] was freshly built by the normalizer: primitives are
    compared by value, and an array or object is never identical to one
    that was allocated afterwards. *)
Definition strict_eq_fresh (a b : value) : bool :=
  match a, b with
  | VUndefined, VUndefined => true
  | VNull, VNull => true
  | VBool x, VBool y => Bool.eqb x y
  | VNum x, VNum y => x =? y
  | VStr x, VStr y => String.eqb x y
  | _, _ => false
  end.

(** ** Host data and the plugin's state *)

Record Settings : Type := {
  whitelistedIds : string;
  trackProfileChanges : bool;
  trackStartedTyping : bool;
  trackSentMessage : bool;
  showMessageBody : bool;
  charLimit : Z;
}.

(** The defaults of [definePluginSettings]. *)
Definition default_settings : Settings := {|
  whitelistedIds := "";
  trackProfileChanges := false;
  trackStartedTyping := true;
  trackSentMessage := true;
  showMessageBody := true;
  charLimit := 118;
|}.

(** Modelled from the spec: the payload and message types of [./types] and
    [discord-types] are not among the sources. Each record holds the fields
    the handlers read, optional where the handlers guard them with [?.],
    [!] or [||]. *)
Record Attachment : Type := { filename : option string }.

Record Author : Type := { author_id : option string }.

Record Message : Type := {
  msg_id : string;
  msg_author : option Author;
  msg_type : Z;
  msg_content : option string;
  msg_attachments : option (list Attachment);
  msg_channel_id : option string;
}.

(** [MessageCreatePayload] and [MessageUpdatePayload]. *)
Record MessagePayload : Type := {
  message : option Message;
  guildId : option string;
  channelId : option string;
}.

Record MessageDeletePayload : Type := {
  del_id : option string;
  del_channelId : option string;
  del_guildId : option string;
}.

(** A user of the host's UserStore; [avatarURL] is what
    [getAvatarURL(undefined, undefined, false)] answers. *)
Record User : Type := {
  user_id : string;
  username : string;
  avatarURL : option string;
}.

Record Channel : Type := { channel_id : string }.

(** What the click callback of a notification does when invoked. *)
Inductive ClickAction : Type :=
  | SwitchToMsg (guildId channelId messageId : option string)
  | SelectChannel (guildId channelId : option string) (messageId : string)
  | OpenUserProfile (userId : string).

Record Notification : Type := {
  title : string;
  body : string;
  onClick : ClickAction;
  icon : string;
}.

Inductive Level : Type := LInfo | LWarn | LError | LConsoleError.

(** Observable effects, in the order they happen. *)
Inductive Event : Type :=
  | EvLog (lvl : Level) (msg : string)
  | EvNotify (n : Notification)
  | EvLiveLookup (channelId id : string)
  | EvCacheLookup (id : string)
  | EvImport (path : string).

(** The host as a handler sees it at one moment. *)
Record Host : Type := {
  getCurrentUser : option User;
  getCurrentChannel : option Channel;
  getUser : string -> option User;
  getMessage : string -> string -> option Message;
}.

(** A loaded [LoggedMessageManager] module and the outcome of the two
    dynamic imports ([inr] carries the text of the import error). *)
Record LoggerModule : Type := {
  mod_loggedMessages : option (gmap string Message);
}.

Record Imports : Type := {
  equicordplugins : option LoggerModule;
  userplugins : LoggerModule + string;
}.

Record World : Type := {
  settings : Settings;
  oldUsers : gmap string value;
  loggedMessages : gmap string Message;
  trace : list Event;
}.

(** Field updates of the world. *)
Definition with_trace (w : World) (t : list Event) : World :=
  {| settings := settings w; oldUsers := oldUsers w;
     loggedMessages := loggedMessages w; trace := t |}.

Definition with_loggedMessages (w : World) (m : gmap string Message) : World :=
  {| settings := settings w; oldUsers := oldUsers w;
     loggedMessages := m; trace := trace w |}.

Definition with_oldUsers (w : World) (m : gmap string value) : World :=
  {| settings := settings w; oldUsers := m;
     loggedMessages := loggedMessages w; trace := trace w |}.

Definition with_whitelistedIds (w : World) (s : string) : World :=
  {| settings :=
       {| whitelistedIds := s;
          trackProfileChanges := trackProfileChanges (settings w);
          trackStartedTyping := trackStartedTyping (settings w);
          trackSentMessage := trackSentMessage (settings w);
          showMessageBody := showMessageBody (settings w);
          charLimit := charLimit (settings w) |};
     oldUsers := oldUsers w; loggedMessages := loggedMessages w;
     trace := trace w |}.

(** ** State and exception monad *)

Definition M (A : Type) : Type := World -> Outcome A * World.

Global Instance M_ret : MRet M := fun A a w => (Return a, w).
Global Instance M_bind : MBind M := fun A B f m w =>
  match m w with
  | (Return a, w') => f a w'
  | (Throw e, w') => (Throw e, w')
  end.

Definition get_world : M World := fun w => (Return w, w).
Definition throw {A : Type} (e : string) : M A := fun w => (Throw e, w).
Definition lift {A : Type} (o : Outcome A) : M A := fun w => (o, w).

Definition emit (e : Event) : M unit := fun w =>
  (Return tt, with_trace w (trace w ++ [e])).

Definition set_whitelistedIds (s : string) : M unit := fun w =>
  (Return tt, with_whitelistedIds w s).

Definition set_oldUser (id : string) (snapshot : value) : M unit := fun w =>
  (Return tt, with_oldUsers w (<[id := snapshot]> (oldUsers w))).

Definition set_loggedMessages (m : gmap string Message) : M unit := fun w =>
  (Return tt, with_loggedMessages w m).

Definition logger_info (msg : string) : M unit := emit (EvLog LInfo msg).
Definition logger_warn (msg : string) : M unit := emit (EvLog LWarn msg).
Definition logger_error (msg : string) : M unit := emit (EvLog LError msg).
Definition console_error (msg : string) : M unit := emit (EvLog LConsoleError msg).

(** The notifications a trace shows. *)
Definition notifications (t : list Event) : list Notification :=
  omap (fun e => match e with EvNotify n => Some n | _ => None end) t.

(** ** Whitelist store *)

(** The [items] every operation starts from. *)
Definition parseWhitelist (whitelistedIds : string) : list string :=
  if negb (String.eqb whitelistedIds "")
  then filter (fun item => item ≠ "") (trim <$> split_comma whitelistedIds)
  else [].

Definition addToWhitelist (id : string) : M unit :=
  w ← get_world;
  let items := parseWhitelist (whitelistedIds (settings w)) in
  if negb (includes items id) then
    let items := items ++ [id] in
    set_whitelistedIds (join_comma items);;
    logger_info ("Added ID " +:+ id +:+ " to whitelist.")
  else
    logger_warn ("ID " +:+ id +:+ " is already in the whitelist.").

Definition removeFromWhitelist (id : string) : M unit :=
  w ← get_world;
  let items := parseWhitelist (whitelistedIds (settings w)) in
  let index := indexOf items id in
  if negb (index =? -1) then
    let items := splice1 items index in
    set_whitelistedIds (join_comma items);;
    logger_info ("Removed ID " +:+ id +:+ " from whitelist.")
  else
    logger_warn ("ID " +:+ id +:+ " not found in the whitelist.").

Definition isInWhitelist (store : Settings) (id : string) : bool :=
  let items := parseWhitelist (whitelistedIds store) in
  includes items id.

(** ** Notifications and the gate *)

Definition TRANSPARENT_ICON : string :=
  "data:image/png;base64,iVBORw0KGgoAAAANSUhEUgAAAAEAAAABCAYAAAAfFcSJAAAADUlEQVQIW2NkYGD4DwABBAEAQ6yD0gAAAABJRU5ErkJggg==".

Definition createNotification (title body : string) (onClick : ClickAction)
    (icon : option string) : M unit :=
  emit (EvNotify {| title := title; body := body; onClick := onClick;
                    icon := if truthy_str icon then default "" icon
                            else TRANSPARENT_ICON |}).

(** [getCurrentChannel()?.id] *)
Definition currentChannelId (host : Host) : option string :=
  channel_id <$> getCurrentChannel host.

Definition shouldNotify (host : Host) (store : Settings)
    (userId : string) (channelId : option string) : bool :=
  isInWhitelist store userId
  && negb (bool_decide (currentChannelId host = channelId)).

Definition placeholder_body : string := "Click to jump to the message".

(** [attachments?.[0]?.filename] *)
Definition first_filename (attachments : option (list Attachment)) : option string :=
  match attachments with
  | Some (a :: _) => filename a
  | _ => None
  end.

(** [payload.message] is destructured without a guard. *)
Definition getMessageBody (store : Settings) (payload : MessagePayload)
  : Outcome string :=
  if negb (showMessageBody store) then Return placeholder_body
  else
    let charLimit := charLimit store in
    match message payload with
    | None => Throw (TypeError_read "undefined" "content")
    | Some msg =>
        let content := msg_content msg in
        let attachments := msg_attachments msg in
        let baseContent :=
          if truthy_str content then default "" content
          else if truthy_str (first_filename attachments)
               then default "" (first_filename attachments)
               else placeholder_body in
        Return (if (charLimit >? 0) && (str_length baseContent >? charLimit)
                then substring baseContent 0 charLimit +:+ "..."
                else baseContent)
    end.

(** ** Context menu patch *)

Inductive MenuAction : Type := ToggleFollow (userId : string).

Inductive ElementKind : Type := MenuSeparator | MenuItem | OtherElement.

(** A rendered child; [elem_id] is [child.props.id]. *)
Record Element : Type := {
  elem_kind : ElementKind;
  elem_id : option string;
  elem_label : option string;
  elem_action : option MenuAction;
}.

(** The [props] of a user context menu: the user the menu was opened on. *)
Record MenuProps : Type := { props_user_id : string }.

(** [children] holds elements and holes ([null], [undefined], [false]).
    The patch mutates [children] in place; the array it leaves is the
    result. *)
Definition contextMenuPatch (host : Host) (store : Settings)
    (children : list (option Element)) (props : option MenuProps)
  : Outcome (list (option Element)) :=
  match props with
  | None => Return children
  | Some props =>
      match getCurrentUser host with
      | None => Throw (TypeError_read "undefined" "id")
      | Some me =>
          if decide (props_user_id props = user_id me) then Return children
          else if negb (existsb
                          (fun child =>
                             bool_decide ((child ≫= elem_id) = Some "follower-v1"))
                          children)
          then
            Return
              (children ++
                 [Some {| elem_kind := MenuSeparator; elem_id := None;
                          elem_label := None; elem_action := None |};
                  Some {| elem_kind := MenuItem; elem_id := Some "follower-v1";
                          elem_label :=
                            Some (if isInWhitelist store (props_user_id props)
                                  then "Stop Following User" else "Follow User");
                          elem_action := Some (ToggleFollow (props_user_id props)) |}])
          else Return children
      end
  end.

(** ** Event handlers *)

(** [UserStore.getUser(id)] followed by a member read. *)
Definition getUser_or_throw (host : Host) (id : string) (member : string) : M User :=
  match getUser host id with
  | Some u => mret u
  | None => throw (TypeError_read "undefined" member)
  end.

Definition MESSAGE_CREATE (host : Host) (payload : MessagePayload) : M unit :=
  w ← get_world;
  let authorId : option string := (message payload ≫= msg_author) ≫= author_id in
  if negb (truthy_str authorId) || negb (truthy_str (channelId payload))
     || negb (trackSentMessage (settings w))
  then mret tt
  else
    match message payload, authorId with
    | Some msg, Some authorId =>
        if negb (shouldNotify host (settings w) authorId (channelId payload))
        then mret tt
        else
          author ← getUser_or_throw host authorId "username";
          if msg_type msg =? 7 then
            createNotification
              (username author +:+ " Joined a server")
              "Click to jump to the message."
              (SwitchToMsg (guildId payload) (channelId payload) (Some (msg_id msg)))
              (avatarURL author)
          else
            body ← lift (getMessageBody (settings w) payload);
            createNotification
              (username author +:+ " Sent a message")
              body
              (SwitchToMsg (guildId payload) (channelId payload) (Some (msg_id msg)))
              (avatarURL author)
    | _, _ => mret tt
    end.

Definition MESSAGE_UPDATE (host : Host) (payload : MessagePayload) : M unit :=
  w ← get_world;
  let authorId : option string := (message payload ≫= msg_author) ≫= author_id in
  if negb (truthy_str authorId) || negb (truthy_str (channelId payload))
  then mret tt
  else
    match message payload, authorId with
    | Some msg, Some authorId =>
        if negb (shouldNotify host (settings w) authorId (channelId payload))
        then mret tt
        else
          author ← getUser_or_throw host authorId "username";
          body ← lift (getMessageBody (settings w) payload);
          createNotification
            (username author +:+ " Edited a message")
            body
            (SwitchToMsg (guildId payload) (channelId payload) (Some (msg_id msg)))
            (avatarURL author)
    | _, _ => mret tt
    end.

Definition import_path_equicord : string :=
  "equicordplugins/messageLoggerEnhanced/LoggedMessageManager".
Definition import_path_userplugins : string :=
  "userplugins/vc-message-logger-enhanced/LoggedMessageManager".

(** [module ? module.loggedMessages : null]; [None] stands for both [null]
    and an [undefined] member. *)
Definition importLoggedMessages (imports : Imports)
  : M (option (gmap string Message)) :=
  emit (EvImport import_path_equicord);;
  match equicordplugins imports with
  | Some module => mret (mod_loggedMessages module)
  | None =>
      emit (EvImport import_path_userplugins);;
      match userplugins imports with
      | inl module => mret (mod_loggedMessages module)
      | inr error =>
          console_error ("Failed to load MessageLoggerEnhanced: " +:+ error);;
          mret None
      end
  end.

(** The names every plain object answers through [Object.prototype]. *)
Definition inherited_names : list string :=
  ["constructor"; "__defineGetter__"; "__defineSetter__"; "hasOwnProperty";
   "__lookupGetter__"; "__lookupSetter__"; "isPrototypeOf";
   "propertyIsEnumerable"; "toString"; "valueOf"; "__proto__"; "toLocaleString"].

(** [record[key]] on a plain object used as a map: the own entry when there
    is one, else the member the object inherits under one of the inherited
    names, else [undefined]. *)
Definition record_read {A : Type} (inherited : A) (record : gmap string A)
    (key : string) : option A :=
  match record !! key with
  | Some entry => Some entry
  | None => if bool_decide (key ∈ inherited_names) then Some inherited else None
  end.

(** What the message-deleted handler sees of an inherited member (a
    function, or the prototype object): a truthy value without [author],
    of which it reads nothing else. *)
Definition inherited_message : Message :=
  {| msg_id := ""; msg_author := None; msg_type := 0; msg_content := None;
     msg_attachments := None; msg_channel_id := None |}.

(** What the profile handler sees of an inherited member: a truthy value
    that the normalizer leaves truthy and that has no [user] member. *)
Definition inherited_snapshot : value := VObj [].

(** [MessageStore.getMessage(channelId, id) || loggedMessages[id]]: the
    cache is read only when the live store has no message. *)
Definition lookupMessage (host : Host) (channelId id : string)
  : M (option Message) :=
  emit (EvLiveLookup channelId id);;
  match getMessage host channelId id with
  | Some msg => mret (Some msg)
  | None =>
      emit (EvCacheLookup id);;
      w ← get_world;
      mret (record_read inherited_message (loggedMessages w) id)
  end.

Definition not_found_diagnostic : string :=
  "Received a MESSAGE_DELETE event but the message was not found in the MessageStore. Consider enabling " +:+ String "034"%char "Cache Messages From Servers" +:+ String "034"%char " setting in MessageLoggerEnhanced.".

(** Lines 322 to 326 of the handler: the message it resolved and the host
    as it is once the handler goes on ([host] is the host when the event
    arrives, [host'] the host after the awaited import). *)
Definition resolveDeleted (host host' : Host) (imports : Imports)
    (channelId id : string) : M (option Message * Host) :=
  message ← lookupMessage host channelId id;
  match message with
  | Some msg => mret (Some msg, host)
  | None =>
      imported ← importLoggedMessages imports;
      set_loggedMessages (default ∅ imported);;
      message ← lookupMessage host' channelId id;
      mret (message, host')
  end.

Definition quote : string := String "034"%char EmptyString.

(** The body of the message-deleted notification (line 340). *)
Definition deletedBody (content : string) : string :=
  quote +:+ (if str_length content >? 100
             then substring content 0 100 +:+ "..."
             else content) +:+ quote.

Definition MESSAGE_DELETE (host host' : Host) (imports : Imports)
    (payload : MessageDeletePayload) : M unit :=
  if negb (truthy_str (del_id payload))
     || negb (truthy_str (del_channelId payload))
     || negb (truthy_str (del_guildId payload))
  then mret tt
  else
    match del_id payload, del_channelId payload with
    | Some id, Some channelId =>
        '(message, now) ← resolveDeleted host host' imports channelId id;
        match message with
        | None => logger_error not_found_diagnostic
        | Some message =>
            w ← get_world;
            let authorId : option string := msg_author message ≫= author_id in
            match authorId with
            | None => mret tt
            | Some authorId =>
                if negb (shouldNotify now (settings w) authorId
                           (msg_channel_id message))
                then mret tt
                else
                  author ← getUser_or_throw now authorId "username";
                  match msg_content message with
                  | None => throw (TypeError_read "undefined" "length")
                  | Some content =>
                      createNotification
                        (username author +:+ " Deleted a message!")
                        (deletedBody content)
                        (SelectChannel (del_guildId payload)
                           (msg_channel_id message) (msg_id message))
                        (avatarURL author)
                  end
            end
        end
    | _, _ => mret tt
    end.

(** The field names the profile handler reports (lines 380 to 391). *)
Definition tracked_fields : list string :=
  ["username"; "globalName"; "avatar"; "discriminator"; "clan"; "flags";
   "banner"; "banner_color"; "accent_color"; "bio"].

(** [keys.filter(p)] for a predicate that may throw: the first exception
    ends the filtering. *)
Fixpoint filter_keys (p : string -> Outcome bool) (keys : list string)
  : Outcome (list string) :=
  match keys with
  | [] => Return []
  | key :: rest =>
      b ← p key;
      kept ← filter_keys p rest;
      Return (if b : bool then key :: kept else kept)
  end.

(** [user[key] !== oldUser.user[key] && [...].includes(key)] *)
Definition key_changed (user : list (string * value)) (oldUser : value)
    (key : string) : Outcome bool :=
  let mine := obj_get key user in
  oldUser_user ← prop_read oldUser "user";
  theirs ← prop_read oldUser_user key;
  Return (negb (strict_eq_fresh mine theirs) && includes tracked_fields key).

(** [isInWhitelist(user.id)] on an arbitrary value: [includes] compares
    with strict equality, so only a string can be found. *)
Definition isInWhitelist_value (store : Settings) (id : value) : bool :=
  match id with
  | VStr s => isInWhitelist store s
  | _ => false
  end.

(** Past its first guard the handler holds a [user] with a truthy [id]
    that is in the whitelist: an object whose [id] is a string. The last
    branch of each [match] below is therefore never taken. *)
Definition USER_PROFILE_FETCH_SUCCESS (host : Host) (payload : value) : M unit :=
  w ← get_world;
  user ← lift (prop_read payload "user");
  let user_id := prop_read_opt user "id" in
  if negb (truthy user_id) || negb (isInWhitelist_value (settings w) user_id)
     || negb (trackProfileChanges (settings w))
  then mret tt
  else
    match user, user_id with
    | VObj fields, VStr id =>
        let normalizedPayload := convertSnakeCaseToCamelCase payload in
        let oldUser :=
          match record_read inherited_snapshot (oldUsers w) id with
          | Some snapshot =>
              if truthy snapshot then convertSnakeCaseToCamelCase snapshot
              else VNull
          | None => VNull
          end in
        if negb (truthy oldUser) then set_oldUser id normalizedPayload
        else
          changedKeys ← lift (filter_keys (key_changed fields oldUser)
                                (obj_keys fields));
          if Z.of_nat (length changedKeys) =? 0 then mret tt
          else
            let notificationTitle := toStr (obj_get "username" fields) in
            let notificationBody :=
              "Updated properties: " +:+ join_comma_space changedKeys +:+ "." in
            stored ← getUser_or_throw host id "getAvatarURL";
            createNotification
              (notificationTitle +:+ " updated their profile!")
              notificationBody
              (OpenUserProfile id)
              (avatarURL stored);;
            set_oldUser id normalizedPayload
    | _, _ => mret tt
    end.

(** Running a handler from a world. *)
Definition run {A : Type} (m : M A) (w : World) : Outcome A * World := m w.

Definition initial_world (store : Settings) : World :=
  {| settings := store; oldUsers := ∅; loggedMessages := ∅; trace := [] |}.

(** ** Vocabulary of the statements *)

Fixpoint has_comma (s : string) : bool :=
  match s with
  | EmptyString => false
  | String c r => Ascii.eqb c ","%char || has_comma r
  end.

(** An identifier the comma-separated serialization can carry: not empty,
    holding no comma, with no white space at either end. *)
Definition well_formed_id (id : string) : Prop :=
  id ≠ "" ∧ has_comma id = false ∧ trim id = id.

(** How many entries of [items] are [id]. *)
Definition occurrences (id : string) (items : list string) : nat :=
  length (filter (fun item => item = id) items).

(** The whitelist entries a world holds. *)
Definition whitelist_items (w : World) : list string :=
  parseWhitelist (whitelistedIds (settings w)).

(** The first [n] characters of [s]. *)
Fixpoint str_take (n : nat) (s : string) : string :=
  match n, s with
  | S n', String c r => String c (str_take n' r)
  | _, _ => EmptyString
  end.

(** The body-truncation rule as the settings describe it: a positive limit
    clips longer text to its first [limit] characters and appends an
    ellipsis; any other limit leaves the text as it is. *)
Definition clip (limit : Z) (text : string) : string :=
  if bool_decide (0 < limit ∧ limit < str_length text)
  then str_take (Z.to_nat limit) text +:+ "..."
  else text.

(** A key in which every underscore is followed by an ASCII letter. *)
Fixpoint snake_case (key : string) : bool :=
  match key with
  | EmptyString => true
  | String c rest =>
      match rest with
      | EmptyString => negb (Ascii.eqb c "_"%char)
      | String d rest' =>
          if Ascii.eqb c "_"%char then is_letter d && snake_case rest'
          else snake_case rest
      end
  end.

Fixpoint has_underscore (s : string) : bool :=
  match s with
  | EmptyString => false
  | String c r => Ascii.eqb c "_"%char || has_underscore r
  end.

Definition is_scalar (v : value) : bool :=
  match v with
  | VArr _ | VObj _ => false
  | _ => true
  end.

(** One step of the [reduce] in the normalizer. *)
Definition convert_step (newObj : list (string * value)) (kv : string * value)
  : list (string * value) :=
  obj_set (camelCaseKey kv.1) (convertSnakeCaseToCamelCase kv.2) newObj.

(** What one call of [importLoggedMessages] yields and the events it
    leaves, read off the two import outcomes. *)
Definition imported_cache (imports : Imports) : option (gmap string Message) :=
  match equicordplugins imports with
  | Some module => mod_loggedMessages module
  | None =>
      match userplugins imports with
      | inl module => mod_loggedMessages module
      | inr _ => None
      end
  end.

Definition import_events (imports : Imports) : list Event :=
  EvImport import_path_equicord ::
  match equicordplugins imports with
  | Some _ => []
  | None =>
      EvImport import_path_userplugins ::
      match userplugins imports with
      | inl _ => []
      | inr error =>
          [EvLog LConsoleError ("Failed to load MessageLoggerEnhanced: " +:+ error)]
      end
  end.

(** The events of one lookup: the cache is consulted after a miss of the
    live store only. *)
Definition lookup_events (h : Host) (channelId id : string) : list Event :=
  EvLiveLookup channelId id ::
  match getMessage h channelId id with
  | Some _ => []
  | None => [EvCacheLookup id]
  end.

(** The events that start a dynamic import of [path]. *)
Definition is_import_of (path : string) (e : Event) : bool :=
  match e with
  | EvImport p => bool_decide (p = path)
  | _ => false
  end.

(** ** Sample data for the concrete instances *)

Definition sample_settings (ids : string) (limit : Z) (showBody : bool) : Settings :=
  {| whitelistedIds := ids; trackProfileChanges := true;
     trackStartedTyping := true; trackSentMessage := true;
     showMessageBody := showBody; charLimit := limit |}.

Definition sample_world (ids : string) : World :=
  initial_world (sample_settings ids 10 true).

Definition sample_user : User :=
  {| user_id := "42"; username := "ann"; avatarURL := None |}.

Definition sample_host : Host :=
  {| getCurrentUser := Some {| user_id := "1"; username := "me"; avatarURL := None |};
     getCurrentChannel := Some {| channel_id := "900" |};
     getUser := fun id => if decide (id = "42") then Some sample_user else None;
     getMessage := fun _ _ => None |}.

Definition sample_message (content : string) : Message :=
  {| msg_id := "m1"; msg_author := Some {| author_id := Some "42" |};
     msg_type := 0; msg_content := Some content; msg_attachments := None;
     msg_channel_id := Some "901" |}.

Definition sample_payload (content : string) : MessagePayload :=
  {| message := Some (sample_message content); guildId := Some "g1";
     channelId := Some "901" |}.

(** A host whose live message store still holds [m] under its channel. *)
Definition sample_host_holding (m : Message) : Host :=
  {| getCurrentUser := getCurrentUser sample_host;
     getCurrentChannel := getCurrentChannel sample_host;
     getUser := getUser sample_host;
     getMessage := fun channelId id =>
       if decide (Some channelId = msg_channel_id m ∧ id = msg_id m)
       then Some m else None |}.

Definition sample_imports : Imports :=
  {| equicordplugins := None; userplugins := inr "Error: Cannot find module" |}.

Definition sample_delete_payload : MessageDeletePayload :=
  {| del_id := Some "m1"; del_channelId := Some "901"; del_guildId := Some "g1" |}.

Definition sample_profile (pronouns : string) : value :=
  VObj [("user", VObj [("id", VStr "42"); ("username", VStr "ann");
                       ("avatar", VNull); ("pronouns", VStr pronouns)])].

(** A world that follows user 42 and holds the normalized [snapshot]. *)
Definition sample_world_with_snapshot (snapshot : value) : World :=
  with_oldUsers (sample_world "42")
    {[ "42" := convertSnakeCaseToCamelCase snapshot ]}.

(** ** Navigation, thread creation, follow and unfollow *)

(** The calls into the host's navigation a click callback makes. *)
Inductive Navigation : Type :=
  | TransitionToGuildSync (guildId : string)
  | SelectChannelCall (guildId channelId messageId : option string)
  | OpenUserProfileCall (userId : string).

(** [guildId || "@me"] *)
Definition guild_or_me (guildId : option string) : string :=
  if truthy_str guildId then default "" guildId else "@me".

Definition switchToMsg (guildId channelId messageId : option string)
  : list Navigation :=
  (if truthy_str guildId then [TransitionToGuildSync (default "" guildId)] else [])
  ++ (if truthy_str channelId
      then [SelectChannelCall (Some (guild_or_me guildId)) channelId messageId]
      else []).

(** Invoking the click callback of a notification. *)
Definition click (action : ClickAction) : list Navigation :=
  match action with
  | SwitchToMsg guildId channelId messageId => switchToMsg guildId channelId messageId
  | SelectChannel guildId channelId messageId =>
      [SelectChannelCall guildId channelId (Some messageId)]
  | OpenUserProfile userId => [OpenUserProfileCall userId]
  end.

(** Modelled from the spec: [ThreadCreatePayload] of [./types] is not among
    the sources. The records hold the fields the handler reads, optional
    where it guards them. *)
Record ThreadChannel : Type := {
  thread_id : option string;
  thread_ownerId : option string;
  thread_guild_id : option string;
  thread_parent_id : option string;
}.

Record ThreadCreatePayload : Type := {
  channel : option ThreadChannel;
  isNewlyCreated : bool;
}.

Definition THREAD_CREATE (host : Host) (payload : ThreadCreatePayload) : M unit :=
  w ← get_world;
  let id : option string := channel payload ≫= thread_id in
  let ownerId : option string := channel payload ≫= thread_ownerId in
  if negb (truthy_str id) || negb (truthy_str ownerId)
     || negb (match ownerId with
              | Some ownerId => isInWhitelist (settings w) ownerId
              | None => false
              end)
  then mret tt
  else
    match channel payload, ownerId with
    | Some channel, Some ownerId =>
        if isNewlyCreated payload then
          owner ← getUser_or_throw host ownerId "username";
          createNotification
            ("New thread created by " +:+ username owner)
            "Click to view the thread."
            (SwitchToMsg (thread_guild_id channel) (thread_parent_id channel) None)
            (avatarURL owner)
        else mret tt
    | _, _ => mret tt
    end.

(** A success toast of the host. *)
Record Toast : Type := { toast_message : string }.

(** The parts of the host that follow and unfollow use besides [Host]: the
    [usernameNormalized] member of a stored user, and the outcome of
    [RestAPI.get] for a user's profile ([inl] the [body] of the response,
    [inr] the text of the rejection). *)
Record HostApi : Type := {
  usernameNormalized : User -> option string;
  getProfile : string -> value + string;
}.

(** [user.usernameNormalized || user.username] *)
Definition displayName (api : HostApi) (user : User) : string :=
  if truthy_str (usernameNormalized api user)
  then default "" (usernameNormalized api user)
  else username user.

(** [oldUsers[id].user.globalName || oldUsers[id].user.username] *)
Definition cachedName (snapshot : value) : Outcome value :=
  user ← prop_read snapshot "user";
  globalName ← prop_read user "globalName";
  if truthy globalName then Return globalName else prop_read user "username".

(** [delete oldUsers[id]] *)
Definition delete_oldUser (id : string) : M unit := fun w =>
  (Return tt, with_oldUsers w (delete id (oldUsers w))).

(** The [try] block of [followUser] and its [catch] (lines 470 to 482): an
    exception of the fetch or of the log line is logged, never passed on.
    The snapshot is assigned before the log line reads the name from it.
    The plugin's state is taken as untouched by other handlers while the
    fetch is awaited. *)
Definition cacheProfile (api : HostApi) (id : string) : M unit :=
  match getProfile api id with
  | inl body =>
      set_oldUser id (convertSnakeCaseToCamelCase body);;
      match cachedName (convertSnakeCaseToCamelCase body) with
      | Return name =>
          logger_info ("Cached user " +:+ id +:+ " with name " +:+ toStr name
                       +:+ " for further usage.")
      | Throw error =>
          logger_error ("Failed to cache user " +:+ id +:+ " during follow: "
                        +:+ error)
      end
  | inr error =>
      logger_error ("Failed to cache user " +:+ id +:+ " during follow: "
                    +:+ error)
  end.

(** The result is the toast the call shows. *)
Definition followUser (host : Host) (api : HostApi) (id : string) : M Toast :=
  user ← getUser_or_throw host id "usernameNormalized";
  let toast := {| toast_message := "Following " +:+ displayName api user |} in
  addToWhitelist id;;
  cacheProfile api id;;
  mret toast.

Definition unfollowUser (host : Host) (api : HostApi) (id : string) : M Toast :=
  user ← getUser_or_throw host id "usernameNormalized";
  let toast := {| toast_message := "Stopped following " +:+ displayName api user |} in
  removeFromWhitelist id;;
  delete_oldUser id;;
  mret toast.

(** The [action] of the context-menu item. *)
Definition menuAction (host : Host) (api : HostApi) (action : MenuAction) : M Toast :=
  match action with
  | ToggleFollow userId =>
      w ← get_world;
      if isInWhitelist (settings w) userId
      then unfollowUser host api userId
      else followUser host api userId
  end.

(** A value whose objects, at every depth, have pairwise distinct keys
    that hold no underscore and are no array indices. *)
Fixpoint plain_keyed (v : value) : bool :=
  match v with
  | VArr elems => forallb plain_keyed elems
  | VObj fields =>
      forallb (fun kv => negb (has_underscore kv.1)
                         && bool_decide (array_index kv.1 = None)
                         && plain_keyed kv.2) fields
      && bool_decide (NoDup fields.*1)
  | _ => true
  end.

Definition sample_api : HostApi :=
  {| usernameNormalized := fun _ => None;
     getProfile := fun id =>
       if decide (id = "42") then inl (sample_profile "she")
       else inr "Error: 404" |}.

Definition sample_thread (newly : bool) : ThreadCreatePayload :=
  {| channel := Some {| thread_id := Some "t1"; thread_ownerId := Some "42";
                        thread_guild_id := Some "g1";
                        thread_parent_id := Some "900" |};
     isNewlyCreated := newly |}.

(** The notification [createNotification] shows for its arguments. *)
Definition shown (title body : string) (onClick : ClickAction)
    (icon : option string) : Notification :=
  {| title := title; body := body; onClick := onClick;
     icon := if truthy_str icon then default "" icon else TRANSPARENT_ICON |}.

(** Settings with every tracking switch and the body switch off. *)
Definition quiet_settings (ids : string) : Settings :=
  {| whitelistedIds := ids; trackProfileChanges := false;
     trackStartedTyping := false; trackSentMessage := false;
     showMessageBody := false; charLimit := 0 |}.

(** The message, author and channel a message handler acts on, when all
    are present and the two identifiers are not empty. *)
Definition acting_on (payload : MessagePayload) : option (Message * string * string) :=
  match message payload, (message payload ≫= msg_author) ≫= author_id,
        channelId payload with
  | Some msg, Some a, Some c =>
      if negb (String.eqb a "") && negb (String.eqb c "") then Some (msg, a, c)
      else None
  | _, _, _ => None
  end.

Fixpoint all_white_space (s : string) : bool :=
  match s with
  | EmptyString => true
  | String c r => is_white_space c && all_white_space r
  end.

(** A string that is empty, or begins and ends with a character that is no
    white space. *)
Definition no_outer_white_space (s : string) : Prop :=
  s = ""
  ∨ ((∃ c r, s = String c r ∧ is_white_space c = false)
     ∧ (∃ r c, s = r +:+ String c "" ∧ is_white_space c = false)).


(** The snapshot the profile handler compares against, when it has a
    usable one: a truthy cached entry or inherited member. *)
Definition usable_snapshot (w : World) (id : string) : option value :=
  match record_read inherited_snapshot (oldUsers w) id with
  | Some snapshot => if truthy snapshot then Some snapshot else None
  | None => None
  end.

(** A handler that left the settings and both caches alone and showed at
    most one notification, doing nothing else. *)
Definition at_most_notified (w w' : World) : Prop :=
  settings w' = settings w ∧ oldUsers w' = oldUsers w
  ∧ loggedMessages w' = loggedMessages w
  ∧ (trace w' = trace w ∨ ∃ n, trace w' = trace w ++ [EvNotify n]).

(** * Properties *)

(** ** Strings *)

Section Strings.

Implicit Types (s a b : string) (c : ascii) (l : list string).

Lemma append_nil s : "" +:+ s = s.
Proof. reflexivity. Qed.

Lemma append_cons c a b : String c a +:+ b = String c (a +:+ b).
Proof. reflexivity. Qed.

Lemma append_nil_r s : s +:+ "" = s.
Proof. induction s as [|c s IH]; [done|]. by rewrite append_cons, IH. Qed.

Lemma append_assoc a b s : (a +:+ b) +:+ s = a +:+ b +:+ s.
Proof. induction a as [|c a IH]; [done|]. by rewrite !append_cons, IH. Qed.

Lemma append_length a b :
  String.length (a +:+ b) = (String.length a + String.length b)%nat.
Proof. induction a as [|c a IH]; [done|]. rewrite append_cons. simpl. by rewrite IH. Qed.

Lemma eqb_empty_false s : s ≠ "" → String.eqb s "" = false.
Proof. intros H. by apply String.eqb_neq. Qed.

Lemma split_go_no_comma s : has_comma s = false → split_go s = (s, []).
Proof.
  induction s as [|c s IH]; simpl; [done|].
  destruct (Ascii.eqb c ","); simpl; [done|].
  intros H. by rewrite IH.
Qed.

Lemma split_comma_no_comma s : has_comma s = false → split_comma s = [s].
Proof. intros H. unfold split_comma. by rewrite split_go_no_comma. Qed.

Lemma split_comma_app a s :
  has_comma a = false →
  split_comma (a +:+ "," +:+ s) = a :: split_comma s.
Proof.
  unfold split_comma. induction a as [|c a IH]; intros H.
  - rewrite append_nil, append_cons, append_nil. simpl.
    by destruct (split_go s).
  - simpl in H. rewrite append_cons. simpl.
    destruct (Ascii.eqb c ","); simpl in H; [done|].
    specialize (IH H). destruct (split_go (a +:+ "," +:+ s)) as [h t].
    by simplify_eq.
Qed.

Lemma split_go_pieces s :
  has_comma (split_go s).1 = false
  ∧ Forall (fun x => has_comma x = false) (split_go s).2.
Proof.
  induction s as [|c s [IH1 IH2]]; simpl; [by split|].
  destruct (split_go s) as [h t]. simpl in *.
  destruct (Ascii.eqb c ",") eqn:E; simpl.
  - split; [done|]. by constructor.
  - split; [|done]. by rewrite E.
Qed.

Lemma split_comma_pieces s :
  Forall (fun x => has_comma x = false) (split_comma s).
Proof.
  unfold split_comma. pose proof (split_go_pieces s) as [H1 H2].
  destruct (split_go s) as [h t]. by constructor.
Qed.

Lemma split_comma_join l :
  l ≠ [] → Forall (fun x => has_comma x = false) l →
  split_comma (join_comma l) = l.
Proof.
  induction l as [|x l IH]; [done|]. intros _ H.
  apply Forall_cons in H as [Hx Hl]. destruct l as [|y l].
  - simpl. by apply split_comma_no_comma.
  - change (join_comma (x :: y :: l)) with (x +:+ "," +:+ join_comma (y :: l)).
    rewrite split_comma_app by done. f_equal. by apply IH.
Qed.

Lemma join_comma_nonempty x l : x ≠ "" → join_comma (x :: l) ≠ "".
Proof.
  destruct x as [|c x]; [done|]. intros _. destruct l; [done|].
  change (join_comma (String c x :: s :: l))
    with (String c x +:+ "," +:+ join_comma (s :: l)).
  by rewrite append_cons.
Qed.

Lemma trimStart_has_comma s : has_comma s = false → has_comma (trimStart s) = false.
Proof.
  induction s as [|c s IH]; simpl; [done|]. intros H.
  apply orb_false_iff in H as [Hc Hs].
  destruct (is_white_space c); [by apply IH|]. simpl. by rewrite Hc, Hs.
Qed.

Lemma trimEnd_cons c s :
  trimEnd (String c s) =
  if is_white_space c && bool_decide (trimEnd s = "") then ""
  else String c (trimEnd s).
Proof.
  simpl. destruct (trimEnd s); simpl.
  - by destruct (is_white_space c).
  - by rewrite andb_false_r.
Qed.

Lemma trimEnd_has_comma s : has_comma s = false → has_comma (trimEnd s) = false.
Proof.
  induction s as [|c s IH]; [done|]. intros H. simpl in H.
  apply orb_false_iff in H as [Hc Hs]. rewrite trimEnd_cons.
  destruct (_ && _); [done|]. simpl. by rewrite Hc, IH.
Qed.

Lemma trimEnd_idemp s : trimEnd (trimEnd s) = trimEnd s.
Proof.
  induction s as [|c s IH]; [done|]. rewrite trimEnd_cons.
  destruct (is_white_space c && bool_decide (trimEnd s = "")) eqn:E; [done|].
  by rewrite trimEnd_cons, IH, E.
Qed.

Lemma trimStart_head s :
  trimStart s = "" ∨ ∃ c r, trimStart s = String c r ∧ is_white_space c = false.
Proof.
  induction s as [|c s IH]; simpl; [by left|].
  destruct (is_white_space c) eqn:E; [done|]. right. by exists c, s.
Qed.

Lemma trimEnd_head c s :
  is_white_space c = false → trimEnd (String c s) = String c (trimEnd s).
Proof. intros H. by rewrite trimEnd_cons, H. Qed.

Lemma trimStart_head_fix c s :
  is_white_space c = false → trimStart (String c s) = String c s.
Proof. intros H. simpl. by rewrite H. Qed.

Lemma trim_idemp s : trim (trim s) = trim s.
Proof.
  unfold trim. destruct (trimStart_head s) as [E|(c & r & E & W)]; rewrite E.
  - done.
  - rewrite trimEnd_head by done. rewrite trimStart_head_fix by done.
    by rewrite trimEnd_head, trimEnd_idemp.
Qed.

Lemma trim_has_comma s : has_comma s = false → has_comma (trim s) = false.
Proof. intros H. by apply trimEnd_has_comma, trimStart_has_comma. Qed.

End Strings.


(** ** Whitelist store *)

Section Whitelist.

Implicit Types (w : World) (id s : string) (items l : list string).

Lemma includes_true items id : includes items id = true ↔ id ∈ items.
Proof. unfold includes. by rewrite bool_decide_eq_true. Qed.

Lemma includes_false items id : includes items id = false ↔ id ∉ items.
Proof. unfold includes. by rewrite bool_decide_eq_false. Qed.

Lemma parseWhitelist_well_formed s : Forall well_formed_id (parseWhitelist s).
Proof.
  unfold parseWhitelist. destruct (negb _); [|constructor].
  apply Forall_forall. intros x Hx.
  apply list_elem_of_filter in Hx as [Hne Hin].
  apply list_elem_of_fmap in Hin as (y & -> & Hy).
  split; [done|]. split.
  - apply trim_has_comma.
    by apply (proj1 (Forall_forall _ _) (split_comma_pieces s)).
  - apply trim_idemp.
Qed.

Lemma well_formed_entries_fixed l :
  Forall well_formed_id l →
  filter (fun item => item ≠ "") (trim <$> l) = l.
Proof.
  induction 1 as [|x l (Hne & _ & Htrim) _ IH]; [done|].
  rewrite fmap_cons, Htrim, filter_cons_True by done. by rewrite IH.
Qed.

Lemma parseWhitelist_join l :
  Forall well_formed_id l → parseWhitelist (join_comma l) = l.
Proof.
  intros H. destruct l as [|x l]; [done|].
  pose proof (Forall_inv H) as (Hne & _ & _).
  unfold parseWhitelist.
  rewrite eqb_empty_false by (by apply join_comma_nonempty). simpl negb. cbv iota.
  rewrite split_comma_join; [by apply well_formed_entries_fixed|done|].
  eapply Forall_impl; [exact H|]. by intros y (_ & ? & _).
Qed.

Lemma indexOf_lower l id : -1 ≤ indexOf l id.
Proof.
  induction l as [|x l IH]; simpl; [lia|].
  destruct (decide (x = id)); [lia|].
  destruct (Z.eqb_spec (indexOf l id) (-1)); lia.
Qed.

Lemma indexOf_not_in l id : id ∉ l → indexOf l id = -1.
Proof.
  induction l as [|x l IH]; simpl; [done|]. intros H.
  apply not_elem_of_cons in H as [Hx Hl].
  rewrite decide_False by done. by rewrite IH.
Qed.

Lemma indexOf_in l id :
  id ∈ l →
  ∃ l1 l2, l = l1 ++ id :: l2 ∧ (id ∉ l1)
           ∧ indexOf l id = Z.of_nat (length l1).
Proof.
  induction l as [|x l IH]; intros H.
  { by apply elem_of_nil in H. }
  simpl. destruct (decide (x = id)) as [->|Hne].
  - exists [], l. split; [done|]. split; [apply not_elem_of_nil|done].
  - apply elem_of_cons in H as [->|H]; [done|].
    destruct (IH H) as (l1 & l2 & -> & Hl1 & Hidx).
    exists (x :: l1), l2. split; [done|]. split.
    + apply not_elem_of_cons. by split.
    + rewrite Hidx. destruct (Z.eqb_spec (Z.of_nat (length l1)) (-1)); [lia|].
      simpl length. lia.
Qed.

Lemma splice1_middle l1 x l2 :
  splice1 (l1 ++ x :: l2) (Z.of_nat (length l1)) = l1 ++ l2.
Proof.
  unfold splice1. rewrite length_app. simpl length.
  destruct (Z.ltb_spec (Z.of_nat (length l1)) 0); [lia|].
  rewrite Z.min_l by lia. rewrite Nat2Z.id.
  clear. induction l1 as [|y l1 IH]; [done|]. simpl. by f_equal.
Qed.

Lemma occurrences_zero id l : occurrences id l = 0%nat ↔ id ∉ l.
Proof.
  unfold occurrences. induction l as [|x l IH].
  - split; [intros _; apply not_elem_of_nil|done].
  - rewrite filter_cons, not_elem_of_cons.
    destruct (decide (x = id)) as [->|Hne]; simpl.
    + split; [done|by intros [? _]].
    + rewrite IH. split; [|by intros [_ ?]].
      intros ?. split; [|done]. by intros ->.
Qed.

Lemma occurrences_split id l1 l2 :
  occurrences id (l1 ++ id :: l2)
  = (occurrences id l1 + S (occurrences id l2))%nat.
Proof.
  unfold occurrences. rewrite filter_app, filter_cons_True by done.
  by rewrite length_app.
Qed.

Lemma addToWhitelist_run w id :
  run (addToWhitelist id) w =
  if includes (whitelist_items w) id
  then (Return tt,
        with_trace w
          (trace w ++ [EvLog LWarn ("ID " +:+ id +:+ " is already in the whitelist.")]))
  else (Return tt,
        with_trace
          (with_whitelistedIds w (join_comma (whitelist_items w ++ [id])))
          (trace w ++ [EvLog LInfo ("Added ID " +:+ id +:+ " to whitelist.")])).
Proof.
  unfold run, addToWhitelist, whitelist_items, mbind, M_bind, get_world.
  by destruct (includes _ id).
Qed.

Lemma removeFromWhitelist_run w id :
  run (removeFromWhitelist id) w =
  if indexOf (whitelist_items w) id =? -1
  then (Return tt,
        with_trace w
          (trace w ++ [EvLog LWarn ("ID " +:+ id +:+ " not found in the whitelist.")]))
  else (Return tt,
        with_trace
          (with_whitelistedIds w
             (join_comma (splice1 (whitelist_items w) (indexOf (whitelist_items w) id))))
          (trace w ++ [EvLog LInfo ("Removed ID " +:+ id +:+ " from whitelist.")])).
Proof.
  unfold run, removeFromWhitelist, whitelist_items, mbind, M_bind, get_world.
  by destruct (_ =? -1).
Qed.

(** The entries after [add]: a well-formed new id goes last. *)
Lemma whitelist_items_add w id :
  well_formed_id id →
  whitelist_items (run (addToWhitelist id) w).2 =
  if includes (whitelist_items w) id then whitelist_items w
  else whitelist_items w ++ [id].
Proof.
  intros Hwf. rewrite addToWhitelist_run.
  destruct (includes (whitelist_items w) id); [done|].
  unfold whitelist_items at 1. simpl.
  apply parseWhitelist_join, Forall_app. split.
  - apply parseWhitelist_well_formed.
  - by constructor.
Qed.

(** The entries after [remove]: the first occurrence is dropped. *)
Lemma whitelist_items_remove w id :
  ((id ∉ whitelist_items w)
   ∧ whitelist_items (run (removeFromWhitelist id) w).2 = whitelist_items w)
  ∨ (∃ l1 l2, whitelist_items w = l1 ++ id :: l2 ∧ (id ∉ l1)
     ∧ whitelist_items (run (removeFromWhitelist id) w).2 = l1 ++ l2).
Proof.
  rewrite removeFromWhitelist_run.
  destruct (decide (id ∈ whitelist_items w)) as [Hin|Hout].
  - right. destruct (indexOf_in _ _ Hin) as (l1 & l2 & E & Hl1 & Hidx).
    exists l1, l2. split; [done|]. split; [done|].
    rewrite Hidx. destruct (Z.eqb_spec (Z.of_nat (length l1)) (-1)); [lia|].
    unfold whitelist_items at 1. simpl. rewrite E, splice1_middle.
    apply parseWhitelist_join.
    pose proof (parseWhitelist_well_formed (whitelistedIds (settings w))) as H.
    fold (whitelist_items w) in H. rewrite E in H.
    apply Forall_app in H as [H1 H2]. apply Forall_cons in H2 as [_ H2].
    apply Forall_app. by split.
  - left. split; [done|]. by rewrite indexOf_not_in.
Qed.

End Whitelist.


(** ** The claims about the whitelist store and the gate *)

(** C1. [shouldNotify(u, c)] is true exactly when [u] is in the whitelist
    and [c] differs from the identifier of the focused channel; it is false
    for a user that is not whitelisted whatever [c] is; and with [c] absent
    and a channel focused, the inequality holds, so the answer is the
    whitelist membership of [u]. *)
Theorem shouldNotify_iff (host : Host) (store : Settings) (u : string)
    (c : option string) :
  (shouldNotify host store u c = true
   ↔ isInWhitelist store u = true ∧ c ≠ currentChannelId host)
  ∧ (isInWhitelist store u = false → shouldNotify host store u c = false)
  ∧ (∀ ch, getCurrentChannel host = Some ch →
           shouldNotify host store u None = isInWhitelist store u).
Proof.
  unfold shouldNotify. split; [|split].
  - rewrite andb_true_iff, negb_true_iff, bool_decide_eq_false.
    split; intros [? ?]; split; congruence.
  - by intros ->.
  - intros ch Hch. unfold currentChannelId. rewrite Hch. simpl.
    by rewrite andb_true_r.
Qed.

Lemma shouldNotify_iff_witness :
  isInWhitelist (sample_settings "7" 10 true) "42" = false
  ∧ getCurrentChannel sample_host = Some {| channel_id := "900" |}
  ∧ shouldNotify sample_host (sample_settings "7" 10 true) "42" (Some "5") = false
  ∧ shouldNotify sample_host (sample_settings "7" 10 true) "7" None = true.
Proof.
  destruct (shouldNotify_iff sample_host (sample_settings "7" 10 true) "42" (Some "5"))
    as (_ & Hout & _).
  destruct (shouldNotify_iff sample_host (sample_settings "7" 10 true) "7" None)
    as (_ & _ & Habsent).
  split; [reflexivity|]. split; [reflexivity|]. split.
  - apply Hout. reflexivity.
  - rewrite (Habsent _ eq_refl). reflexivity.
Defined.

(** C2, as the claim states it, fails: an id that holds a comma is split
    when the string is parsed again, and is not found after [add]. *)
Lemma addToWhitelist_comma_id_not_contained :
  isInWhitelist (settings (run (addToWhitelist "1,2") (sample_world "")).2) "1,2"
  = false.
Proof. reflexivity. Qed.

(** C2 (amended). For every id that is not empty, holds no comma and has no
    white space at either end: [add] returns without an error, afterwards
    [contains(id)] is true, and when the id was already present the store is
    left as it was and a warning is logged. *)
Theorem addToWhitelist_then_contains (w : World) (id : string)
    (Hwf : well_formed_id id) :
  (run (addToWhitelist id) w).1 = Return tt
  ∧ isInWhitelist (settings (run (addToWhitelist id) w).2) id = true
  ∧ (run (addToWhitelist id) w).2 =
    if isInWhitelist (settings w) id
    then with_trace w
           (trace w ++ [EvLog LWarn ("ID " +:+ id +:+ " is already in the whitelist.")])
    else with_trace
           (with_whitelistedIds w (join_comma (whitelist_items w ++ [id])))
           (trace w ++ [EvLog LInfo ("Added ID " +:+ id +:+ " to whitelist.")]).
Proof.
  split; [|split].
  - rewrite addToWhitelist_run. by destruct (includes _ _).
  - change (includes (whitelist_items (run (addToWhitelist id) w).2) id = true).
    rewrite whitelist_items_add by done. apply includes_true.
    destruct (includes (whitelist_items w) id) eqn:E.
    + by apply includes_true.
    + apply elem_of_app. right. by apply list_elem_of_singleton.
  - rewrite addToWhitelist_run. unfold isInWhitelist. fold (whitelist_items w).
    by destruct (includes _ _).
Qed.

Lemma addToWhitelist_then_contains_witness :
  well_formed_id "42"
  ∧ isInWhitelist (settings (run (addToWhitelist "42") (sample_world "7, 8")).2) "42"
    = true.
Proof.
  assert (Hwf : well_formed_id "42") by (repeat split; done).
  split; [exact Hwf|].
  exact (proj1 (proj2 (addToWhitelist_then_contains (sample_world "7, 8") "42" Hwf))).
Defined.

(** C3, as the claim states it, fails: from a persisted string that holds
    the id twice, [remove] drops the first entry only. *)
Lemma removeFromWhitelist_duplicate_still_contained :
  isInWhitelist (settings (run (removeFromWhitelist "7") (sample_world "7,7")).2) "7"
  = true.
Proof. reflexivity. Qed.

(** C3 (amended). For every id and every persisted string whose entries
    hold the id at most once: [remove] returns without an error and
    afterwards [contains(id)] is false. *)
Theorem removeFromWhitelist_then_not_contained (w : World) (id : string)
    (Honce : (occurrences id (whitelist_items w) ≤ 1)%nat) :
  (run (removeFromWhitelist id) w).1 = Return tt
  ∧ isInWhitelist (settings (run (removeFromWhitelist id) w).2) id = false.
Proof.
  split.
  - rewrite removeFromWhitelist_run. by destruct (_ =? _).
  - change (includes (whitelist_items (run (removeFromWhitelist id) w).2) id = false).
    apply includes_false.
    destruct (whitelist_items_remove w id) as [[Hout ->]|(l1 & l2 & E & Hl1 & ->)];
      [done|].
    rewrite E, occurrences_split in Honce.
    assert (occurrences id l2 = 0%nat) as Hl2%occurrences_zero by lia.
    rewrite elem_of_app. by intros [?|?].
Qed.

Lemma removeFromWhitelist_then_not_contained_witness :
  (occurrences "7" (whitelist_items (sample_world "5, 7,9")) ≤ 1)%nat
  ∧ isInWhitelist
      (settings (run (removeFromWhitelist "7") (sample_world "5, 7,9")).2) "7"
    = false.
Proof.
  assert (H : (occurrences "7" (whitelist_items (sample_world "5, 7,9")) ≤ 1)%nat)
    by (vm_compute; lia).
  split; [exact H|].
  exact (proj2 (removeFromWhitelist_then_not_contained (sample_world "5, 7,9") "7" H)).
Defined.

(** C4, as the claim states it, fails: parsing does not remove duplicates. *)
Lemma parseWhitelist_keeps_duplicates :
  parseWhitelist "7,7" = ["7"; "7"] ∧ ¬ NoDup (parseWhitelist "7,7").
Proof.
  split; [reflexivity|]. intros H. apply NoDup_cons in H as [H _].
  apply H. by apply list_elem_of_singleton.
Qed.

Lemma join_split_go (s : string) :
  join_comma ((split_go s).1 :: (split_go s).2) = s.
Proof.
  induction s as [|c s IH]; [done|]. simpl split_go.
  destruct (split_go s) as [h t]. simpl fst in *. simpl snd in *.
  destruct (Ascii.eqb_spec c ",") as [->|Hc]; simpl fst; simpl snd.
  - change (join_comma ("" :: h :: t)) with ("" +:+ "," +:+ join_comma (h :: t)).
    by rewrite IH.
  - destruct t as [|x t]; simpl in *; [by rewrite IH|].
    by rewrite append_cons, IH.
Qed.

Lemma join_split_comma (s : string) : join_comma (split_comma s) = s.
Proof.
  unfold split_comma. pose proof (join_split_go s) as H.
  by destruct (split_go s).
Qed.

Lemma trimStart_decomposition (s : string) :
  ∃ pre, s = pre +:+ trimStart s ∧ all_white_space pre = true.
Proof.
  induction s as [|c s (pre & E & Hpre)]; [by exists ""|]. simpl.
  destruct (is_white_space c) eqn:W.
  - exists (String c pre). rewrite append_cons, <- E. simpl. by rewrite W, Hpre.
  - by exists "".
Qed.

Lemma trimEnd_decomposition (s : string) :
  ∃ post, s = trimEnd s +:+ post ∧ all_white_space post = true.
Proof.
  induction s as [|c s (post & E & Hpost)]; [by exists ""|].
  rewrite trimEnd_cons. destruct (is_white_space c && _) eqn:W.
  - apply andb_true_iff in W as [Wc Ws]. apply bool_decide_eq_true in Ws.
    rewrite Ws in E. rewrite append_nil in E. subst s.
    exists (String c post). split; [done|]. simpl. by rewrite Wc, Hpost.
  - exists post. by rewrite append_cons, <- E.
Qed.

Lemma trimEnd_last (s : string) :
  trimEnd s = "" ∨ ∃ r c, trimEnd s = r +:+ String c "" ∧ is_white_space c = false.
Proof.
  induction s as [|c s IH]; [by left|]. rewrite trimEnd_cons.
  destruct (is_white_space c && _) eqn:W; [by left|]. right.
  destruct IH as [E|(r & d & E & Hd)].
  - rewrite E in *. rewrite bool_decide_eq_true_2, andb_true_r in W by done.
    by exists "", c.
  - exists (String c r), d. by rewrite E, append_cons.
Qed.

Lemma trim_no_outer_white_space (s : string) : no_outer_white_space (trim s).
Proof.
  unfold trim, no_outer_white_space.
  destruct (trimStart_head s) as [E|(c & r & E & W)]; rewrite E; [by left|].
  right. split.
  - exists c, (trimEnd r). split; [by apply trimEnd_head|done].
  - destruct (trimEnd_last (String c r)) as [E'|H]; [|done].
    by rewrite trimEnd_head in E'.
Qed.

Lemma trim_decomposition (s : string) :
  ∃ pre post, s = pre +:+ trim s +:+ post
              ∧ all_white_space pre = true ∧ all_white_space post = true.
Proof.
  destruct (trimStart_decomposition s) as (pre & E1 & Hpre).
  destruct (trimEnd_decomposition (trimStart s)) as (post & E2 & Hpost).
  exists pre, post. unfold trim. by rewrite <- E2, <- E1.
Qed.

(** C4 (amended). The entries every operation starts from are the pieces
    of the persisted string between its commas, in their order, each with
    its outer white space removed, the empty ones dropped and nothing else:
    repeated entries are kept, and any sequence of well-formed ids, with or
    without repetitions, is what its comma-joined string parses to.
    Membership is equality with one of the entries; [add] and [remove]
    store the comma-joined entries with the id appended or its first
    occurrence taken out, or leave the string alone; and a sequence without
    duplicates stays without duplicates under [remove], and under [add] of
    an id that is not empty, holds no comma and has no white space at
    either end. *)
Theorem whitelist_items_invariant (w : World) (id : string) :
  (whitelist_items w
   = filter (fun item => item ≠ "")
       (trim <$> split_comma (whitelistedIds (settings w)))
   ∧ join_comma (split_comma (whitelistedIds (settings w)))
     = whitelistedIds (settings w)
   ∧ Forall (fun piece => has_comma piece = false)
       (split_comma (whitelistedIds (settings w)))
   ∧ (∀ piece, no_outer_white_space (trim piece)
               ∧ ∃ pre post, piece = pre +:+ trim piece +:+ post
                             ∧ all_white_space pre = true
                             ∧ all_white_space post = true)
   ∧ (∀ l, Forall well_formed_id l → parseWhitelist (join_comma l) = l)
   ∧ (well_formed_id id → parseWhitelist (id +:+ "," +:+ id) = [id; id]))
  ∧ Forall well_formed_id (whitelist_items w)
  ∧ (isInWhitelist (settings w) id = true ↔ id ∈ whitelist_items w)
  ∧ whitelistedIds (settings (run (addToWhitelist id) w).2)
    = (if includes (whitelist_items w) id then whitelistedIds (settings w)
       else join_comma (whitelist_items w ++ [id]))
  ∧ whitelistedIds (settings (run (removeFromWhitelist id) w).2)
    = (if indexOf (whitelist_items w) id =? -1 then whitelistedIds (settings w)
       else join_comma (splice1 (whitelist_items w)
                          (indexOf (whitelist_items w) id)))
  ∧ (NoDup (whitelist_items w) →
     NoDup (whitelist_items (run (removeFromWhitelist id) w).2)
     ∧ (well_formed_id id →
        NoDup (whitelist_items (run (addToWhitelist id) w).2))).
Proof.
  split.
  { split; [|split; [apply join_split_comma|split; [apply split_comma_pieces|]]].
    - unfold whitelist_items, parseWhitelist.
      by destruct (String.eqb_spec (whitelistedIds (settings w)) "") as [->|].
    - split; [|split; [apply parseWhitelist_join|]].
      + intros piece.
        split; [apply trim_no_outer_white_space|apply trim_decomposition].
      + intros Hwf. apply (parseWhitelist_join [id; id]).
        by apply Forall_cons_2; [|apply Forall_cons_2; [|apply Forall_nil_2]]. }
  split; [apply parseWhitelist_well_formed|]. split; [apply includes_true|].
  split; [rewrite addToWhitelist_run; by destruct (includes _ _)|].
  split; [rewrite removeFromWhitelist_run; by destruct (_ =? -1)|].
  intros Hnd. split.
  - destruct (whitelist_items_remove w id) as [[_ ->]|(l1 & l2 & E & _ & ->)];
      [done|].
    rewrite E in Hnd. apply NoDup_app in Hnd as (H1 & H12 & H2).
    apply NoDup_cons in H2 as [_ H2]. apply NoDup_app. split; [done|]. split; [|done].
    intros x Hx Hx2. apply (H12 x Hx). by apply elem_of_cons; right.
  - intros Hwf. rewrite whitelist_items_add by done.
    destruct (includes (whitelist_items w) id) eqn:E; [done|].
    apply includes_false in E. apply NoDup_app. split; [done|]. split.
    + intros x Hx ->%list_elem_of_singleton. done.
    + apply NoDup_singleton.
Qed.

Lemma whitelist_items_invariant_witness :
  NoDup (whitelist_items (sample_world "5, 7,9"))
  ∧ well_formed_id "42"
  ∧ NoDup (whitelist_items (run (removeFromWhitelist "7") (sample_world "5, 7,9")).2)
  ∧ NoDup (whitelist_items (run (addToWhitelist "42") (sample_world "5, 7,9")).2)
  ∧ whitelist_items (run (addToWhitelist "42") (sample_world "5, 7,9")).2
    = ["5"; "7"; "9"; "42"]
  ∧ parseWhitelist (join_comma ["7"; "5"; "7"]) = ["7"; "5"; "7"].
Proof.
  assert (Hnd : NoDup (whitelist_items (sample_world "5, 7,9"))).
  { change (NoDup ["5"; "7"; "9"]). by apply (bool_decide_unpack _). }
  assert (Hwf : well_formed_id "42") by (repeat split; done).
  destruct (whitelist_items_invariant (sample_world "5, 7,9") "7")
    as ((_ & _ & _ & _ & Hjoin & _) & _ & _ & _ & _ & Hrem).
  destruct (whitelist_items_invariant (sample_world "5, 7,9") "42")
    as (_ & _ & _ & _ & _ & Hadd).
  split; [exact Hnd|]. split; [exact Hwf|]. split; [exact (proj1 (Hrem Hnd))|].
  split; [exact (proj2 (Hadd Hnd) Hwf)|]. split; [reflexivity|].
  apply Hjoin. repeat constructor; done.
Defined.


(** ** Notification bodies *)

Lemma substring_from_zero (k : nat) (s : string) :
  String.substring 0 k s = str_take k s.
Proof.
  revert s. induction k as [|k IH]; intros [|c s]; simpl; try done.
  by rewrite IH.
Qed.

Lemma substring_prefix (s : string) (n : Z) :
  0 ≤ n → n ≤ str_length s → substring s 0 n = str_take (Z.to_nat n) s.
Proof.
  intros H0 Hn. unfold substring.
  rewrite (Z.max_l 0 0), (Z.min_l 0), (Z.max_l n 0), (Z.min_l n) by lia.
  rewrite Z.min_l, Z.max_r by lia.
  rewrite Z.sub_0_r. apply substring_from_zero.
Qed.

(** [str_take n s] is the prefix of length [n] of a string that long. *)
Lemma str_take_prefix (n : nat) (s : string) :
  (n ≤ String.length s)%nat →
  ∃ rest, s = str_take n s +:+ rest ∧ String.length (str_take n s) = n.
Proof.
  revert s. induction n as [|n IH]; intros s Hn.
  - exists s. by destruct s.
  - destruct s as [|c s]; simpl in Hn; [lia|].
    destruct (IH s) as (rest & E & L); [lia|].
    exists rest. simpl. rewrite append_cons, <- E, L. done.
Qed.

Lemma clip_unlimited (text : string) : clip 0 text = text.
Proof. unfold clip. rewrite bool_decide_eq_false_2; [done|lia]. Qed.

Lemma truthy_str_Some (s : string) : s ≠ "" → truthy_str (Some s) = true.
Proof. intros H. simpl. by rewrite eqb_empty_false. Qed.

(** What [getMessageBody] does to the text it settled on. *)
Lemma clip_computed (limit : Z) (text : string) :
  (if (limit >? 0) && (str_length text >? limit)
   then substring text 0 limit +:+ "..." else text)
  = clip limit text.
Proof.
  unfold clip.
  destruct (Z.gtb_spec limit 0), (Z.gtb_spec (str_length text) limit); simpl.
  - rewrite bool_decide_eq_true_2 by lia. by rewrite substring_prefix by lia.
  - rewrite bool_decide_eq_false_2; [done|lia].
  - rewrite bool_decide_eq_false_2; [done|lia].
  - rewrite bool_decide_eq_false_2; [done|lia].
Qed.

(** C5, as the claim states it, fails: with [showMessageBody] switched off
    the body is the placeholder, however long the content is and whatever
    the limit. *)
Lemma getMessageBody_hidden_body :
  getMessageBody (sample_settings "42" 10 false)
    (sample_payload "hello world this is long")
  = Return "Click to jump to the message".
Proof. reflexivity. Qed.

(** C5 (amended). With [showMessageBody] disabled, the body
    [getMessageBody] computes is the generic placeholder, whatever the
    payload and the limit are. With it enabled, the body computed for a
    message-created or message-updated payload is the clipped base text,
    where the base text is the content when it is not empty, else the first
    attachment's filename when there is one, else the generic placeholder:
    a limit above 0 that the content exceeds gives the first [charLimit]
    characters of the content followed by an ellipsis, a limit of 0 gives
    the content unmodified, and limit 10 on "hello world this is long"
    gives "hello worl..."; a filename or placeholder the base text falls
    back to is clipped in the same way. *)
Theorem getMessageBody_clips_base (store : Settings) (payload : MessagePayload) :
  (showMessageBody store = false →
   getMessageBody store payload = Return "Click to jump to the message")
  ∧ (showMessageBody store = true → ∀ msg, message payload = Some msg →
     (∀ content, msg_content msg = Some content → content ≠ "" →
        getMessageBody store payload = Return (clip (charLimit store) content)
        ∧ (0 < charLimit store → charLimit store < str_length content →
           ∃ first rest, content = first +:+ rest
                         ∧ str_length first = charLimit store
                         ∧ getMessageBody store payload = Return (first +:+ "..."))
        ∧ (charLimit store = 0 → getMessageBody store payload = Return content))
     ∧ (truthy_str (msg_content msg) = false →
        (∀ name, first_filename (msg_attachments msg) = Some name → name ≠ "" →
           getMessageBody store payload = Return (clip (charLimit store) name))
        ∧ (truthy_str (first_filename (msg_attachments msg)) = false →
           getMessageBody store payload
           = Return (clip (charLimit store) "Click to jump to the message"))))
  ∧ getMessageBody (sample_settings "42" 10 true)
      (sample_payload "hello world this is long")
    = Return "hello worl..."
  ∧ (∀ limit text,
       (0 < limit → limit < str_length text →
        ∃ first rest, text = first +:+ rest ∧ str_length first = limit
                      ∧ clip limit text = first +:+ "...")
       ∧ (limit ≤ 0 ∨ str_length text ≤ limit → clip limit text = text)).
Proof.
  split; [|split; [|split; [reflexivity|]]]; cycle 2.
  { intros limit text. unfold clip. split.
    - intros Hpos Hlong. rewrite bool_decide_eq_true_2 by done.
      destruct (str_take_prefix (Z.to_nat limit) text)
        as (rest & E & L); [unfold str_length in Hlong; lia|].
      exists (str_take (Z.to_nat limit) text), rest.
      split; [done|]. split; [|done]. unfold str_length. rewrite L. lia.
    - intros Hno. rewrite bool_decide_eq_false_2; [done|lia]. }
  { intros Hhide. unfold getMessageBody. by rewrite Hhide. }
  intros Hshow msg Hmsg. split.
  - intros content Hc Hne.
    assert (Hbody : getMessageBody store payload
                    = Return (clip (charLimit store) content)).
    { unfold getMessageBody. rewrite Hshow, Hmsg, Hc. simpl negb. cbv iota.
      rewrite truthy_str_Some by done. simpl default. by rewrite clip_computed. }
    split; [done|]. split.
    + intros Hpos Hlong. rewrite Hbody. unfold clip.
      rewrite bool_decide_eq_true_2 by done.
      destruct (str_take_prefix (Z.to_nat (charLimit store)) content)
        as (rest & E & L); [unfold str_length in Hlong; lia|].
      exists (str_take (Z.to_nat (charLimit store)) content), rest.
      split; [done|]. split; [|done]. unfold str_length. rewrite L. lia.
    + intros H0. by rewrite Hbody, H0, clip_unlimited.
  - intros Hempty. split.
    + intros name Hname Hne. unfold getMessageBody.
      rewrite Hshow, Hmsg, Hempty, Hname. simpl negb. cbv iota.
      rewrite truthy_str_Some by done. simpl default. by rewrite clip_computed.
    + intros Hnone. unfold getMessageBody.
      rewrite Hshow, Hmsg, Hempty, Hnone. simpl negb. cbv iota.
      by rewrite clip_computed.
Qed.

Lemma getMessageBody_clips_base_witness :
  getMessageBody (sample_settings "42" 5 true) (sample_payload "hello world")
  = Return "hello..."
  ∧ getMessageBody (sample_settings "42" 0 true) (sample_payload "hello world")
    = Return "hello world"
  ∧ getMessageBody (sample_settings "42" 5 false) (sample_payload "hello world")
    = Return "Click to jump to the message".
Proof.
  destruct (getMessageBody_clips_base (sample_settings "42" 5 true)
              (sample_payload "hello world")) as (_ & H5 & _).
  destruct (getMessageBody_clips_base (sample_settings "42" 0 true)
              (sample_payload "hello world")) as (_ & H0 & _).
  destruct (getMessageBody_clips_base (sample_settings "42" 5 false)
              (sample_payload "hello world")) as (Hhide & _).
  destruct (H5 eq_refl (sample_message "hello world") eq_refl) as [H5c _].
  destruct (H0 eq_refl (sample_message "hello world") eq_refl) as [H0c _].
  split; [|split].
  - exact (proj1 (H5c "hello world" eq_refl ltac:(done))).
  - exact (proj2 (proj2 (H0c "hello world" eq_refl ltac:(done))) eq_refl).
  - exact (Hhide eq_refl).
Defined.

(** The message-deleted body clips at the fixed length 100 and wraps the
    text in quotes, whatever the settings hold. *)
Lemma deletedBody_fixed_limit (content : string) :
  deletedBody content = quote +:+ clip 100 content +:+ quote.
Proof.
  unfold deletedBody. by rewrite <- (clip_computed 100 content).
Qed.

(** C8. The message-deleted body does not follow the configured rule: with
    [charLimit] 10 and the content "hello world this is long" of a
    whitelisted author, outside the focused channel, the handler shows the
    whole content between quotes, where the rule the message-created and
    message-updated handlers apply to the same content and settings gives
    "hello worl...". *)
Lemma MESSAGE_DELETE_body_ignores_charLimit :
  let m := sample_message "hello world this is long" in
  let w := initial_world (sample_settings "42" 10 true) in
  body <$> notifications
             (trace (run (MESSAGE_DELETE (sample_host_holding m) (sample_host_holding m)
                            sample_imports sample_delete_payload) w).2)
  = [quote +:+ "hello world this is long" +:+ quote]
  ∧ getMessageBody (settings w) (sample_payload "hello world this is long")
    = Return "hello worl...".
Proof. split; reflexivity. Qed.

(** ** Context menu *)

(** C10. On the operator's own user the patch leaves the children as they
    are: no follow/unfollow item is added. *)
Theorem contextMenuPatch_own_user (host : Host) (store : Settings)
    (children : list (option Element)) (props : MenuProps) (me : User)
    (Hme : getCurrentUser host = Some me)
    (Hown : props_user_id props = user_id me) :
  contextMenuPatch host store children (Some props) = Return children.
Proof.
  unfold contextMenuPatch. rewrite Hme. by rewrite decide_True.
Qed.

Lemma contextMenuPatch_own_user_witness :
  contextMenuPatch sample_host (sample_settings "42" 10 true) []
    (Some {| props_user_id := "1" |}) = Return []
  ∧ contextMenuPatch sample_host (sample_settings "42" 10 true) []
      (Some {| props_user_id := "42" |}) ≠ Return [].
Proof.
  split.
  - exact (contextMenuPatch_own_user sample_host (sample_settings "42" 10 true) []
             {| props_user_id := "1" |}
             {| user_id := "1"; username := "me"; avatarURL := None |}
             eq_refl eq_refl).
  - discriminate.
Defined.


(** ** Payload normalizer *)

Section Normalizer.

Implicit Types (k key : string) (v : value) (o fields : list (string * value)).

Lemma has_key_true k o : has_key k o = true ↔ k ∈ o.*1.
Proof. unfold has_key. by rewrite bool_decide_eq_true. Qed.

Lemma has_key_false k o : has_key k o = false ↔ k ∉ o.*1.
Proof. unfold has_key. by rewrite bool_decide_eq_false. Qed.

Lemma obj_replace_keys k v o : (obj_replace k v o).*1 = o.*1.
Proof.
  induction o as [|[k' v'] o IH]; [done|]. simpl obj_replace.
  destruct (decide (k' = k)) as [->|]; rewrite !fmap_cons; [done|].
  by rewrite IH.
Qed.

Lemma obj_insert_index_keys n k v o : (obj_insert_index n k v o).*1 ≡ₚ k :: o.*1.
Proof.
  induction o as [|[k' v'] o IH]; [done|]. simpl obj_insert_index.
  destruct (array_index k') as [m|]; [|done].
  destruct (m <? n)%N; [|done]. rewrite !fmap_cons, IH. apply Permutation_swap.
Qed.

Lemma obj_set_keys k v o :
  (obj_set k v o).*1 ≡ₚ if has_key k o then o.*1 else k :: o.*1.
Proof.
  unfold obj_set. destruct (has_key k o); cbv iota.
  - by rewrite obj_replace_keys.
  - destruct (array_index k); [apply obj_insert_index_keys|].
    rewrite fmap_app, fmap_cons, fmap_nil. symmetry. apply Permutation_cons_append.
Qed.

Lemma obj_set_elem_of k v o k' : k' ∈ (obj_set k v o).*1 ↔ k' = k ∨ k' ∈ o.*1.
Proof.
  rewrite obj_set_keys. destruct (has_key k o) eqn:E.
  - apply has_key_true in E. split; [by right|]. by intros [->|?].
  - apply elem_of_cons.
Qed.

Lemma obj_set_NoDup k v o : NoDup o.*1 → NoDup (obj_set k v o).*1.
Proof.
  intros H. rewrite obj_set_keys. destruct (has_key k o) eqn:E; [done|].
  apply has_key_false in E. by apply NoDup_cons.
Qed.

Lemma obj_get_replace_eq k v o : k ∈ o.*1 → obj_get k (obj_replace k v o) = v.
Proof.
  induction o as [|[k' v'] o IH]; simpl; intros H.
  { by apply elem_of_nil in H. }
  destruct (decide (k' = k)) as [->|Hne]; simpl.
  - by rewrite decide_True.
  - rewrite decide_False by done. apply IH.
    by apply elem_of_cons in H as [->|H].
Qed.

Lemma obj_get_replace_ne k k' v o :
  k' ≠ k → obj_get k' (obj_replace k v o) = obj_get k' o.
Proof.
  intros Hne. induction o as [|[k1 v1] o IH]; simpl; [done|].
  destruct (decide (k1 = k)) as [->|Hk1]; simpl.
  - by rewrite !decide_False.
  - by rewrite IH.
Qed.

Lemma obj_get_insert_eq n k v o :
  k ∉ o.*1 → obj_get k (obj_insert_index n k v o) = v.
Proof.
  induction o as [|[k' v'] o IH]; simpl; intros H.
  { by rewrite decide_True. }
  apply not_elem_of_cons in H as [Hk Ho].
  destruct (array_index k') as [m|]; [destruct (m <? n)%N|]; simpl.
  - rewrite decide_False by done. by apply IH.
  - by rewrite decide_True.
  - by rewrite decide_True.
Qed.

Lemma obj_get_insert_ne n k k' v o :
  k' ≠ k → obj_get k' (obj_insert_index n k v o) = obj_get k' o.
Proof.
  intros Hne. induction o as [|[k1 v1] o IH]; simpl.
  { by rewrite decide_False. }
  destruct (array_index k1) as [m|]; [destruct (m <? n)%N|]; simpl.
  - by rewrite IH.
  - by rewrite decide_False.
  - by rewrite decide_False.
Qed.

Lemma obj_get_app_eq k v o : k ∉ o.*1 → obj_get k (o ++ [(k, v)]) = v.
Proof.
  induction o as [|[k' v'] o IH]; simpl; intros H.
  { by rewrite decide_True. }
  apply not_elem_of_cons in H as [Hk Ho].
  rewrite decide_False by done. by apply IH.
Qed.

Lemma obj_get_app_ne k k' v o : k' ≠ k → obj_get k' (o ++ [(k, v)]) = obj_get k' o.
Proof.
  intros Hne. induction o as [|[k1 v1] o IH]; simpl.
  { by rewrite decide_False. }
  by rewrite IH.
Qed.

Lemma obj_get_set_eq k v o : obj_get k (obj_set k v o) = v.
Proof.
  unfold obj_set. destruct (has_key k o) eqn:E.
  - apply obj_get_replace_eq. by apply has_key_true.
  - apply has_key_false in E.
    destruct (array_index k); [by apply obj_get_insert_eq|by apply obj_get_app_eq].
Qed.

Lemma obj_get_set_ne k k' v o : k' ≠ k → obj_get k' (obj_set k v o) = obj_get k' o.
Proof.
  intros Hne. unfold obj_set. destruct (has_key k o).
  - by apply obj_get_replace_ne.
  - destruct (array_index k); [by apply obj_get_insert_ne|by apply obj_get_app_ne].
Qed.

Lemma convert_VObj fields :
  convertSnakeCaseToCamelCase (VObj fields)
  = VObj (fold_left convert_step fields []).
Proof. reflexivity. Qed.

(** The keys of the normalized object are the camelCase forms of the keys
    of the object, each once. *)
Lemma convert_fields_keys fields :
  (∀ k', k' ∈ (fold_left convert_step fields []).*1
         ↔ ∃ k, k ∈ fields.*1 ∧ k' = camelCaseKey k)
  ∧ NoDup (fold_left convert_step fields []).*1.
Proof.
  induction fields as [|[k v] fields [IH1 IH2]] using rev_ind.
  - split; [|constructor]. intros k'. split.
    + by intros ?%elem_of_nil.
    + by intros (k & ?%elem_of_nil & _).
  - rewrite fold_left_app. simpl. unfold convert_step at 1 3. simpl. split.
    + intros k'. rewrite obj_set_elem_of, IH1, fmap_app. simpl. split.
      * intros [->|(k0 & Hk0 & ->)].
        -- exists k. split; [|done]. apply elem_of_app. right. by left.
        -- exists k0. split; [|done]. apply elem_of_app. by left.
      * intros (k0 & Hk0 & ->). apply elem_of_app in Hk0 as [Hk0|Hk0].
        -- right. by exists k0.
        -- left. by apply list_elem_of_singleton in Hk0 as ->.
    + by apply obj_set_NoDup.
Qed.

(** When no two keys share a camelCase form, each field is found under its
    camelCase key with its value normalized. *)
Lemma convert_fields_get fields k v :
  NoDup (camelCaseKey <$> fields.*1) → (k, v) ∈ fields →
  obj_get (camelCaseKey k) (fold_left convert_step fields [])
  = convertSnakeCaseToCamelCase v.
Proof.
  induction fields as [|[k0 v0] fields IH] using rev_ind; intros Hnd Hin.
  { by apply elem_of_nil in Hin. }
  rewrite fold_left_app. simpl. unfold convert_step at 1. simpl.
  rewrite !fmap_app in Hnd. simpl in Hnd.
  apply NoDup_app in Hnd as (Hnd & Hfresh & _).
  apply elem_of_app in Hin as [Hin|Hin].
  - rewrite obj_get_set_ne; [by apply IH|].
    intros E. apply (Hfresh (camelCaseKey k)).
    + apply list_elem_of_fmap. exists k. split; [done|].
      apply list_elem_of_fmap. by exists (k, v).
    + rewrite E. by left.
  - apply list_elem_of_singleton in Hin. simplify_eq. apply obj_get_set_eq.
Qed.

Lemma toUpperCase_not_underscore (d : ascii) :
  is_letter d = true → Ascii.eqb (toUpperCase d) "_" = false.
Proof. by destruct d as [[] [] [] [] [] [] [] []]. Qed.

Lemma camelCaseKey_snake_case_aux key :
  (snake_case key = true → has_underscore (camelCaseKey key) = false)
  ∧ (∀ c, snake_case (String c key) = true →
          has_underscore (camelCaseKey (String c key)) = false).
Proof.
  induction key as [|d key [IH1 IH2]].
  - split; [done|]. intros c. simpl. by intros ->%negb_true_iff.
  - split; [apply IH2|]. intros c.
    change (snake_case (String c (String d key)))
      with (if Ascii.eqb c "_" then is_letter d && snake_case key
            else snake_case (String d key)).
    change (camelCaseKey (String c (String d key)))
      with (if Ascii.eqb c "_" && is_letter d
            then String (toUpperCase d) (camelCaseKey key)
            else String c (camelCaseKey (String d key))).
    destruct (Ascii.eqb c "_") eqn:Ec.
    + intros [Hd Hk]%andb_true_iff. rewrite Hd.
      change (Ascii.eqb (toUpperCase d) "_" || has_underscore (camelCaseKey key)
              = false).
      by rewrite toUpperCase_not_underscore, IH1.
    + intros H.
      change (Ascii.eqb c "_" || has_underscore (camelCaseKey (String d key))
              = false).
      by rewrite Ec, IH2.
Qed.

Lemma camelCaseKey_plain_aux key :
  (has_underscore key = false → camelCaseKey key = key)
  ∧ (∀ c, has_underscore (String c key) = false →
          camelCaseKey (String c key) = String c key).
Proof.
  induction key as [|d key [IH1 IH2]].
  - split; [done|]. done.
  - split; [apply IH2|]. intros c H.
    change (camelCaseKey (String c (String d key)))
      with (if Ascii.eqb c "_" && is_letter d
            then String (toUpperCase d) (camelCaseKey key)
            else String c (camelCaseKey (String d key))).
    change (Ascii.eqb c "_" || has_underscore (String d key) = false) in H.
    apply orb_false_iff in H as [Hc H]. rewrite Hc.
    change (String c (camelCaseKey (String d key)) = String c (String d key)).
    f_equal. by apply IH2.
Qed.






End Normalizer.

(** C9. The normalizer is a total function that leaves scalars as they
    are, maps arrays element by element and rebuilds objects under the
    camelCase forms of their keys, with the values normalized in turn; a key
    whose underscores are each followed by a letter loses all of them, a key
    without underscore is kept; and the example of the specification
    evaluates as stated. *)
Theorem convertSnakeCaseToCamelCase_spec :
  (∀ v, is_scalar v = true → convertSnakeCaseToCamelCase v = v)
  ∧ (∀ elems, convertSnakeCaseToCamelCase (VArr elems)
              = VArr (map convertSnakeCaseToCamelCase elems))
  ∧ (∀ fields, ∃ fields',
        convertSnakeCaseToCamelCase (VObj fields) = VObj fields'
        ∧ (∀ k', k' ∈ obj_keys fields'
                 ↔ ∃ k, k ∈ obj_keys fields ∧ k' = camelCaseKey k)
        ∧ NoDup (obj_keys fields')
        ∧ (NoDup (camelCaseKey <$> obj_keys fields) →
           ∀ k v, (k, v) ∈ fields →
                  obj_get (camelCaseKey k) fields' = convertSnakeCaseToCamelCase v))
  ∧ (∀ key, snake_case key = true → has_underscore (camelCaseKey key) = false)
  ∧ (∀ key, has_underscore key = false → camelCaseKey key = key)
  ∧ convertSnakeCaseToCamelCase
      (VObj [("global_name", VStr "x");
             ("nested_obj", VObj [("accent_color", VNum 1)])])
    = VObj [("globalName", VStr "x");
            ("nestedObj", VObj [("accentColor", VNum 1)])].
Proof.
  split; [by intros []|]. split; [done|]. split.
  - intros fields. exists (fold_left convert_step fields []).
    split; [apply convert_VObj|].
    destruct (convert_fields_keys fields) as [H1 H2].
    split; [exact H1|]. split; [exact H2|].
    intros Hnd k v Hin. by apply convert_fields_get.
  - split; [intros key; apply camelCaseKey_snake_case_aux|].
    split; [intros key; apply camelCaseKey_plain_aux|]. reflexivity.
Qed.

Lemma convertSnakeCaseToCamelCase_spec_witness :
  camelCaseKey "banner_color" = "bannerColor"
  ∧ has_underscore (camelCaseKey "banner_color") = false
  ∧ camelCaseKey "bio" = "bio"
  ∧ convertSnakeCaseToCamelCase (VNum 7) = VNum 7.
Proof.
  destruct convertSnakeCaseToCamelCase_spec as (Hscalar & _ & _ & Hsnake & Hplain & _).
  split; [reflexivity|]. split; [exact (Hsnake "banner_color" eq_refl)|].
  split; [exact (Hplain "bio" eq_refl)|exact (Hscalar (VNum 7) eq_refl)].
Defined.

(** ** Message-deleted handler *)

Section MessageDelete.

Context (host host' : Host) (imports : Imports).

Implicit Types (w : World) (id channelId : string).

Lemma run_bind {A B : Type} (m : M A) (f : A → M B) w :
  run (m ≫= f) w =
  match run m w with
  | (Return a, w') => run (f a) w'
  | (Throw e, w') => (Throw e, w')
  end.
Proof. reflexivity. Qed.

Lemma run_mret {A : Type} (a : A) w : run (mret a) w = (Return a, w).
Proof. reflexivity. Qed.

Lemma run_get_world w : run get_world w = (Return w, w).
Proof. reflexivity. Qed.

Lemma run_lift {A : Type} (o : Outcome A) w : run (lift o) w = (o, w).
Proof. reflexivity. Qed.

Lemma set_loggedMessages_run (m : gmap string Message) w :
  run (set_loggedMessages m) w = (Return tt, with_loggedMessages w m).
Proof. reflexivity. Qed.

Lemma emit_run (e : Event) w :
  run (emit e) w = (Return tt, with_trace w (trace w ++ [e])).
Proof. reflexivity. Qed.

Lemma notifications_app (t1 t2 : list Event) :
  notifications (t1 ++ t2) = notifications t1 ++ notifications t2.
Proof. apply omap_app. Qed.

Lemma lookupMessage_run (h : Host) channelId id w :
  run (lookupMessage h channelId id) w =
  (Return (match getMessage h channelId id with
           | Some msg => Some msg
           | None => record_read inherited_message (loggedMessages w) id
           end),
   with_trace w (trace w ++ lookup_events h channelId id)).
Proof.
  unfold lookupMessage, lookup_events. rewrite run_bind. simpl.
  destruct (getMessage h channelId id); [done|].
  rewrite run_bind. simpl. unfold with_trace. simpl. by rewrite <- app_assoc.
Qed.

Lemma importLoggedMessages_run w :
  run (importLoggedMessages imports) w =
  (Return (imported_cache imports),
   with_trace w (trace w ++ import_events imports)).
Proof.
  unfold importLoggedMessages, imported_cache, import_events.
  rewrite run_bind. simpl. destruct (equicordplugins imports); [done|].
  rewrite run_bind. simpl. unfold with_trace. simpl.
  destruct (userplugins imports); simpl.
  - by rewrite <- app_assoc.
  - rewrite run_bind. simpl. unfold with_trace. simpl.
    by rewrite <- !app_assoc.
Qed.

Lemma resolveDeleted_run channelId id w :
  run (resolveDeleted host host' imports channelId id) w =
  match getMessage host channelId id,
        record_read inherited_message (loggedMessages w) id with
  | Some msg, _ =>
      (Return (Some msg, host),
       with_trace w (trace w ++ [EvLiveLookup channelId id]))
  | None, Some msg =>
      (Return (Some msg, host),
       with_trace w (trace w ++ [EvLiveLookup channelId id; EvCacheLookup id]))
  | None, None =>
      let cache := default ∅ (imported_cache imports) in
      (Return (match getMessage host' channelId id with
               | Some msg => Some msg
               | None => record_read inherited_message cache id
               end, host'),
       with_trace (with_loggedMessages w cache)
         (trace w ++ [EvLiveLookup channelId id; EvCacheLookup id]
            ++ import_events imports ++ lookup_events host' channelId id))
  end.
Proof.
  unfold resolveDeleted. rewrite run_bind, lookupMessage_run.
  unfold lookup_events at 1.
  destruct (getMessage host channelId id) as [msg|]; [done|].
  destruct (record_read inherited_message (loggedMessages w) id) as [msg|];
    [done|].
  rewrite run_bind, importLoggedMessages_run.
  rewrite run_bind, set_loggedMessages_run. cbv beta iota.
  rewrite run_bind, lookupMessage_run. cbv beta iota.
  rewrite run_mret. unfold with_trace, with_loggedMessages. simpl.
  by rewrite <- !app_assoc.
Qed.

End MessageDelete.

(** C7. With id, channel and guild present, the deleted message is looked
    up in the live store first and in the cached map only after a miss
    there; when both miss, the logger cache is imported once, replaces the
    cached map, and the same lookup is made once more; a message found at
    any of these steps is the one the handler goes on with; when none is
    found the handler logs the diagnostic as an error, shows no
    notification and returns. The cached map is read as the plain object it
    is: under an id that is one of the inherited names and has no entry of
    its own, the read answers the inherited member, which counts as found
    (no import, no diagnostic) and, having no author, ends the handler
    without a notification; under every other id the read is the map's
    entry. *)
Theorem MESSAGE_DELETE_resolution_order (host host' : Host) (imports : Imports)
    (payload : MessageDeletePayload) (w : World) (id channelId guild : string)
    (Hid : del_id payload = Some id) (Hid' : id ≠ "")
    (Hch : del_channelId payload = Some channelId) (Hch' : channelId ≠ "")
    (Hg : del_guildId payload = Some guild) (Hg' : guild ≠ "") :
  let resolve := run (resolveDeleted host host' imports channelId id) w in
  let handle := run (MESSAGE_DELETE host host' imports payload) w in
  let cache := default ∅ (imported_cache imports) in
  let cached := record_read inherited_message (loggedMessages w) id in
  let imported := record_read inherited_message cache id in
  (∀ msg, getMessage host channelId id = Some msg →
     resolve = (Return (Some msg, host),
                with_trace w (trace w ++ [EvLiveLookup channelId id])))
  ∧ (∀ msg, getMessage host channelId id = None →
       cached = Some msg →
       resolve = (Return (Some msg, host),
                  with_trace w
                    (trace w ++ [EvLiveLookup channelId id; EvCacheLookup id])))
  ∧ (getMessage host channelId id = None → cached = None →
       resolve = (Return (match getMessage host' channelId id with
                          | Some msg => Some msg
                          | None => imported
                          end, host'),
                  with_trace (with_loggedMessages w cache)
                    (trace w ++ [EvLiveLookup channelId id; EvCacheLookup id]
                       ++ import_events imports
                       ++ lookup_events host' channelId id))
       ∧ (getMessage host' channelId id = None → imported = None →
          handle = (Return tt,
                    with_trace (with_loggedMessages w cache)
                      (trace w ++ [EvLiveLookup channelId id; EvCacheLookup id]
                         ++ import_events imports
                         ++ [EvLiveLookup channelId id; EvCacheLookup id;
                             EvLog LError not_found_diagnostic]))
          ∧ notifications (trace handle.2) = notifications (trace w)))
  ∧ (∃ rest, trace handle.2 = trace resolve.2 ++ rest)
  ∧ length (filter (fun e => is_import_of import_path_equicord e)
              (import_events imports)) = 1%nat
  ∧ notifications (import_events imports) = []
  ∧ (id ∉ inherited_names →
     cached = loggedMessages w !! id ∧ imported = cache !! id)
  ∧ (id ∈ inherited_names → getMessage host channelId id = None →
     loggedMessages w !! id = None →
     handle = (Return tt,
               with_trace w
                 (trace w ++ [EvLiveLookup channelId id; EvCacheLookup id]))).
Proof.
  intros resolve handle cache cached imported.
  assert (Hhandle : handle =
    match resolve with
    | (Return (Some message, h), w') =>
        run (let authorId : option string := msg_author message ≫= author_id in
             match authorId with
             | None => mret tt
             | Some authorId =>
                 w0 ← get_world;
                 if negb (shouldNotify h (settings w0) authorId
                            (msg_channel_id message))
                 then mret tt
                 else
                   author ← getUser_or_throw h authorId "username";
                   match msg_content message with
                   | None => throw (TypeError_read "undefined" "length")
                   | Some content =>
                       createNotification
                         (username author +:+ " Deleted a message!")
                         (deletedBody content)
                         (SelectChannel (del_guildId payload)
                            (msg_channel_id message) (msg_id message))
                         (avatarURL author)
                   end
             end) w'
    | (Return (None, _), w') => run (logger_error not_found_diagnostic) w'
    | (Throw e, w') => (Throw e, w')
    end).
  { unfold handle, resolve, MESSAGE_DELETE. rewrite Hid, Hch, Hg.
    rewrite !truthy_str_Some by done. simpl negb. simpl orb. cbv iota.
    rewrite run_bind.
    destruct (run (resolveDeleted host host' imports channelId id) w)
      as [[[[msg|] h]|e] w']; try done.
    simpl. destruct (msg_author msg ≫= author_id); done. }
  pose proof (resolveDeleted_run host host' imports channelId id w) as Hres.
  fold resolve cached in Hres.
  split; [|split; [|split; [|split; [|split; [|split; [|split]]]]]].
  - intros msg Hlive. by rewrite Hres, Hlive.
  - intros msg Hlive Hcached. by rewrite Hres, Hlive, Hcached.
  - intros Hlive Hcached. rewrite Hlive, Hcached in Hres. cbv zeta in Hres.
    fold cache imported in Hres.
    split; [exact Hres|].
    intros Hlive' Hcache'.
    rewrite Hlive', Hcache' in Hres. rewrite Hhandle, Hres.
    unfold lookup_events. rewrite Hlive'.
    assert (E : ∀ w1, run (logger_error not_found_diagnostic) w1
                      = (Return tt, with_trace w1
                           (trace w1 ++ [EvLog LError not_found_diagnostic])))
      by done.
    assert (Hquiet : notifications (import_events imports) = []).
    { unfold import_events. destruct (equicordplugins imports); [done|].
      by destruct (userplugins imports). }
    rewrite E. clear Hres Hhandle. revert Hquiet.
    generalize (import_events imports). intros evs Hquiet.
    unfold with_trace, with_loggedMessages. simpl.
    repeat (rewrite <- app_assoc; simpl). split; [done|].
    rewrite !notifications_app. simpl. rewrite notifications_app, Hquiet.
    simpl. by rewrite app_nil_r.
  - rewrite Hhandle. destruct resolve as [[[[msg|] h]|e] w'].
    + simpl. destruct (msg_author msg ≫= author_id) as [authorId|].
      * rewrite run_bind. simpl.
        destruct (negb _); [by exists []; rewrite app_nil_r|].
        rewrite run_bind. unfold getUser_or_throw.
        destruct (getUser h authorId); simpl.
        -- destruct (msg_content msg); simpl.
           ++ by eexists.
           ++ by exists []; rewrite app_nil_r.
        -- by exists []; rewrite app_nil_r.
      * by exists []; rewrite app_nil_r.
    + simpl. by eexists.
    + by exists []; rewrite app_nil_r.
  - unfold import_events. destruct (equicordplugins imports); [done|].
    by destruct (userplugins imports).
  - unfold import_events. destruct (equicordplugins imports); [done|].
    by destruct (userplugins imports).
  - intros Hown. unfold cached, imported, record_read.
    rewrite bool_decide_eq_false_2 by done.
    split; [by destruct (loggedMessages w !! id)|by destruct (cache !! id)].
  - intros Hin Hlive Hnone.
    assert (Hc : cached = Some inherited_message).
    { unfold cached, record_read. by rewrite Hnone, bool_decide_eq_true_2. }
    rewrite Hlive, Hc in Hres. by rewrite Hhandle, Hres.
Qed.

Lemma MESSAGE_DELETE_resolution_order_witness :
  run (MESSAGE_DELETE sample_host sample_host sample_imports sample_delete_payload)
    (sample_world "42")
  = (Return tt,
     with_trace (with_loggedMessages (sample_world "42") ∅)
       [EvLiveLookup "901" "m1"; EvCacheLookup "m1";
        EvImport import_path_equicord; EvImport import_path_userplugins;
        EvLog LConsoleError
          "Failed to load MessageLoggerEnhanced: Error: Cannot find module";
        EvLiveLookup "901" "m1"; EvCacheLookup "m1";
        EvLog LError not_found_diagnostic])
  ∧ run (MESSAGE_DELETE sample_host sample_host sample_imports
           {| del_id := Some "constructor"; del_channelId := Some "901";
              del_guildId := Some "g1" |})
      (sample_world "42")
    = (Return tt,
       with_trace (sample_world "42")
         [EvLiveLookup "901" "constructor"; EvCacheLookup "constructor"]).
Proof.
  split.
  - destruct (MESSAGE_DELETE_resolution_order sample_host sample_host
                sample_imports sample_delete_payload (sample_world "42")
                "m1" "901" "g1"
                eq_refl ltac:(done) eq_refl ltac:(done) eq_refl ltac:(done))
      as (_ & _ & H & _).
    destruct (H eq_refl eq_refl) as [_ H'].
    exact (proj1 (H' eq_refl eq_refl)).
  - destruct (MESSAGE_DELETE_resolution_order sample_host sample_host
                sample_imports
                {| del_id := Some "constructor"; del_channelId := Some "901";
                   del_guildId := Some "g1" |}
                (sample_world "42") "constructor" "901" "g1"
                eq_refl ltac:(done) eq_refl ltac:(done) eq_refl ltac:(done))
      as (_ & _ & _ & _ & _ & _ & _ & H).
    apply H; [|reflexivity|reflexivity].
    apply (bool_decide_unpack _). vm_compute. reflexivity.
Defined.

(** ** Profile-fetched handler *)

Section ProfileFetch.

Context (host : Host).

Implicit Types (w : World) (id : string) (fields ofields : list (string * value)).

Lemma truthy_convert (v : value) :
  truthy (convertSnakeCaseToCamelCase v) = truthy v.
Proof. by destruct v. Qed.

Lemma prop_read_user_truthy (v : value) ofields :
  prop_read v "user" = Return (VObj ofields) → truthy v = true.
Proof. by destruct v. Qed.

Lemma usable_snapshot_own w id (snapshot : value) :
  oldUsers w !! id = Some snapshot →
  usable_snapshot w id = if truthy snapshot then Some snapshot else None.
Proof. intros Hown. unfold usable_snapshot, record_read. by rewrite Hown. Qed.


Lemma usable_snapshot_truthy w id (snapshot : value) :
  usable_snapshot w id = Some snapshot → truthy snapshot = true.
Proof.
  unfold usable_snapshot.
  destruct (record_read inherited_snapshot (oldUsers w) id) as [v|]; [|done].
  destruct (truthy v) eqn:E; [|done]. by intros [= <-].
Qed.

(** The handler past its guard, by the snapshot it compares against. *)
Lemma USER_PROFILE_FETCH_SUCCESS_run w pfields fields id :
  obj_get "user" pfields = VObj fields →
  obj_get "id" fields = VStr id → id ≠ "" →
  isInWhitelist (settings w) id = true →
  trackProfileChanges (settings w) = true →
  run (USER_PROFILE_FETCH_SUCCESS host (VObj pfields)) w =
  let normalizedPayload := convertSnakeCaseToCamelCase (VObj pfields) in
  match usable_snapshot w id with
  | None => (Return tt, with_oldUsers w (<[id := normalizedPayload]> (oldUsers w)))
  | Some snapshot =>
    match filter_keys (key_changed fields (convertSnakeCaseToCamelCase snapshot))
            (obj_keys fields) with
    | Throw e => (Throw e, w)
    | Return changedKeys =>
        if Z.of_nat (length changedKeys) =? 0 then (Return tt, w)
        else
          match getUser host id with
          | None => (Throw (TypeError_read "undefined" "getAvatarURL"), w)
          | Some stored =>
              (Return tt,
               with_oldUsers
                 (with_trace w
                    (trace w ++
                     [EvNotify
                        {| title := toStr (obj_get "username" fields)
                                    +:+ " updated their profile!";
                           body := "Updated properties: "
                                   +:+ join_comma_space changedKeys +:+ ".";
                           onClick := OpenUserProfile id;
                           icon := if truthy_str (avatarURL stored)
                                   then default "" (avatarURL stored)
                                   else TRANSPARENT_ICON |}]))
                 (<[id := normalizedPayload]> (oldUsers w)))
          end
    end
  end.
Proof.
  intros Huser Hid Hne Hwl Htrack.
  unfold USER_PROFILE_FETCH_SUCCESS. rewrite run_bind, run_get_world.
  cbv beta iota. rewrite run_bind, run_lift.
  change (prop_read (VObj pfields) "user") with (Return (obj_get "user" pfields)).
  rewrite Huser. cbv beta iota.
  change (prop_read_opt (VObj fields) "id") with (obj_get "id" fields).
  rewrite Hid. cbv zeta.
  change (truthy (VStr id)) with (negb (String.eqb id "")).
  rewrite eqb_empty_false by done.
  change (isInWhitelist_value (settings w) (VStr id))
    with (isInWhitelist (settings w) id).
  rewrite Hwl, Htrack. simpl negb. simpl orb. cbv iota.
  unfold usable_snapshot.
  destruct (record_read inherited_snapshot (oldUsers w) id) as [snapshot|];
    [|done].
  destruct (truthy snapshot) eqn:Htruthy; [|done].
  rewrite truthy_convert, Htruthy. simpl negb. cbv iota.
  rewrite run_bind, run_lift.
  destruct (filter_keys _ _) as [changedKeys|e]; [|done]. cbv beta iota.
  destruct (Z.of_nat (length changedKeys) =? 0); [done|].
  rewrite run_bind. unfold getUser_or_throw.
  destruct (getUser host id) as [stored|]; done.
Qed.


End ProfileFetch.


(** The comparison reads the raw key of the fetched user from the
    normalized snapshot: a fetch identical to the one the snapshot was taken
    from is reported as a change of [banner_color]. *)
Lemma USER_PROFILE_FETCH_SUCCESS_snake_case_key_reported :
  let profile :=
    VObj [("user", VObj [("id", VStr "42"); ("username", VStr "ann");
                         ("banner_color", VStr "#ffffff")])] in
  body <$> notifications
             (trace (run (USER_PROFILE_FETCH_SUCCESS sample_host profile)
                       (sample_world_with_snapshot profile)).2)
  = ["Updated properties: banner_color."].
Proof. vm_compute. reflexivity. Qed.



(** * Further properties *)

(** ** Whitelist store: serialization and composition *)

Section WhitelistMore.

Implicit Types (w : World) (id other s : string) (items l : list string).

Lemma parseWhitelist_unfold s :
  parseWhitelist s = filter (fun item => item ≠ "") (trim <$> split_comma s).
Proof.
  unfold parseWhitelist. destruct (String.eqb_spec s "") as [->|Hne]; [done|].
  done.
Qed.

Lemma split_comma_join_snoc items s :
  Forall (fun x => has_comma x = false) items →
  split_comma (join_comma (items ++ [s])) = items ++ split_comma s.
Proof.
  induction 1 as [|x items Hx _ IH]; [done|].
  change (join_comma ((x :: items) ++ [s]))
    with (match items ++ [s] with
          | [] => x
          | _ :: _ => x +:+ "," +:+ join_comma (items ++ [s])
          end).
  destruct (items ++ [s]) as [|y rest] eqn:E.
  { by destruct items. }
  rewrite split_comma_app by done. rewrite IH. done.
Qed.

Lemma filter_trim_app l1 l2 :
  filter (fun item => item ≠ "") (trim <$> (l1 ++ l2))
  = filter (fun item => item ≠ "") (trim <$> l1)
    ++ filter (fun item => item ≠ "") (trim <$> l2).
Proof. by rewrite fmap_app, filter_app. Qed.

(** The entries after [add] of any string. *)
Lemma whitelist_items_add_any w id :
  whitelist_items (run (addToWhitelist id) w).2 =
  if includes (whitelist_items w) id then whitelist_items w
  else whitelist_items w ++ parseWhitelist id.
Proof.
  rewrite addToWhitelist_run.
  destruct (includes (whitelist_items w) id); [done|].
  unfold whitelist_items at 1. simpl.
  pose proof (parseWhitelist_well_formed (whitelistedIds (settings w))) as Hwf.
  fold (whitelist_items w) in Hwf.
  rewrite parseWhitelist_unfold, split_comma_join_snoc.
  - rewrite filter_trim_app, well_formed_entries_fixed by done.
    by rewrite <- parseWhitelist_unfold.
  - eapply Forall_impl; [exact Hwf|]. by intros y (_ & ? & _).
Qed.

Lemma parseWhitelist_well_formed_id id :
  well_formed_id id → parseWhitelist id = [id].
Proof.
  intros Hwf. change id with (join_comma [id]) at 1.
  apply parseWhitelist_join. by constructor.
Qed.

Lemma occurrences_app id l1 l2 :
  occurrences id (l1 ++ l2) = (occurrences id l1 + occurrences id l2)%nat.
Proof. unfold occurrences. by rewrite filter_app, length_app. Qed.

End WhitelistMore.

(** X1. Serialization round trip: joining a list of identifiers that are
    not empty, hold no comma and carry no outer white space, and parsing
    the result, gives the list back; and whatever the persisted string is,
    its parsed entries survive being joined and parsed again. *)
Theorem whitelist_serialization_round_trip :
  (∀ l : list string, Forall well_formed_id l → parseWhitelist (join_comma l) = l)
  ∧ (∀ s : string,
       parseWhitelist (join_comma (parseWhitelist s)) = parseWhitelist s).
Proof.
  split.
  - apply parseWhitelist_join.
  - intros s. apply parseWhitelist_join, parseWhitelist_well_formed.
Qed.

Lemma whitelist_serialization_round_trip_witness :
  parseWhitelist (join_comma ["5"; "7"; "9"]) = ["5"; "7"; "9"]
  ∧ parseWhitelist (join_comma (parseWhitelist " 5 ,,7 , ")) = ["5"; "7"].
Proof.
  destruct whitelist_serialization_round_trip as [Hjoin Hparse]. split.
  - apply Hjoin. repeat constructor; done.
  - rewrite Hparse. reflexivity.
Defined.

(** X2. What [add] stores for any string: when the string is not among the
    entries, the entries become the old ones followed by the trimmed,
    non-empty comma-separated pieces of the string, so no followed id is
    ever lost, and a string holding commas adds each of its pieces. *)
Theorem addToWhitelist_appends_pieces (w : World) (id : string) :
  whitelist_items (run (addToWhitelist id) w).2 =
  (if isInWhitelist (settings w) id then whitelist_items w
   else whitelist_items w ++ parseWhitelist id)
  ∧ (∀ other, isInWhitelist (settings w) other = true →
              isInWhitelist (settings (run (addToWhitelist id) w).2) other = true).
Proof.
  pose proof (whitelist_items_add_any w id) as H. split; [exact H|].
  intros other Hin.
  change (includes (whitelist_items (run (addToWhitelist id) w).2) other = true).
  rewrite H. apply includes_true. apply includes_true in Hin.
  destruct (includes (whitelist_items w) id); [done|].
  apply elem_of_app. by left.
Qed.

Lemma addToWhitelist_appends_pieces_witness :
  whitelist_items (run (addToWhitelist "1, 2") (sample_world "7")).2
  = ["7"; "1"; "2"]
  ∧ isInWhitelist (settings (run (addToWhitelist "1, 2") (sample_world "7")).2) "7"
    = true.
Proof.
  destruct (addToWhitelist_appends_pieces (sample_world "7") "1, 2") as [H1 H2].
  split.
  - rewrite H1. reflexivity.
  - apply H2. reflexivity.
Defined.

(** X3. [add] of a well-formed id changes the membership of no other id. *)
Theorem addToWhitelist_other_ids (w : World) (id other : string)
    (Hwf : well_formed_id id) (Hother : other ≠ id) :
  isInWhitelist (settings (run (addToWhitelist id) w).2) other
  = isInWhitelist (settings w) other.
Proof.
  change (includes (whitelist_items (run (addToWhitelist id) w).2) other
          = includes (whitelist_items w) other).
  rewrite whitelist_items_add by done.
  destruct (includes (whitelist_items w) id); [done|].
  unfold includes. apply bool_decide_ext. rewrite elem_of_app, list_elem_of_singleton.
  split; [|by left]. by intros [?|?].
Qed.

Lemma addToWhitelist_other_ids_witness :
  isInWhitelist (settings (run (addToWhitelist "42") (sample_world "7")).2) "8"
  = isInWhitelist (settings (sample_world "7")) "8".
Proof.
  apply addToWhitelist_other_ids; [repeat split; done|done].
Defined.

(** X4. [remove] changes the membership of no other id. *)
Theorem removeFromWhitelist_other_ids (w : World) (id other : string)
    (Hother : other ≠ id) :
  isInWhitelist (settings (run (removeFromWhitelist id) w).2) other
  = isInWhitelist (settings w) other.
Proof.
  change (includes (whitelist_items (run (removeFromWhitelist id) w).2) other
          = includes (whitelist_items w) other).
  destruct (whitelist_items_remove w id) as [[_ ->]|(l1 & l2 & -> & _ & ->)];
    [done|].
  unfold includes. apply bool_decide_ext.
  rewrite !elem_of_app, elem_of_cons. split; [intros [?|?]; auto|].
  intros [?|[?|?]]; auto. done.
Qed.

Lemma removeFromWhitelist_other_ids_witness :
  isInWhitelist (settings (run (removeFromWhitelist "7") (sample_world "7, 8")).2) "8"
  = isInWhitelist (settings (sample_world "7, 8")) "8".
Proof. apply removeFromWhitelist_other_ids. done. Defined.

(** X5. [remove] drops exactly one occurrence: the number of entries equal
    to the id goes down by one when there is one, and the entries as a
    whole are left alone when there is none. *)
Theorem removeFromWhitelist_drops_one (w : World) (id : string) :
  occurrences id (whitelist_items (run (removeFromWhitelist id) w).2)
  = pred (occurrences id (whitelist_items w))
  ∧ (isInWhitelist (settings w) id = false →
     run (removeFromWhitelist id) w
     = (Return tt,
        with_trace w
          (trace w ++ [EvLog LWarn ("ID " +:+ id +:+ " not found in the whitelist.")]))).
Proof.
  split.
  - destruct (whitelist_items_remove w id) as [[Hout ->]|(l1 & l2 & -> & _ & ->)].
    + apply occurrences_zero in Hout. by rewrite Hout.
    + rewrite occurrences_split, occurrences_app. lia.
  - intros Hout. apply includes_false in Hout.
    rewrite removeFromWhitelist_run. fold (whitelist_items w) in Hout.
    by rewrite indexOf_not_in.
Qed.

Lemma removeFromWhitelist_drops_one_witness :
  occurrences "7" (whitelist_items (run (removeFromWhitelist "7") (sample_world "7,8,7")).2)
  = 1%nat
  ∧ whitelistedIds (settings (run (removeFromWhitelist "9") (sample_world "7 ,8")).2)
    = "7 ,8".
Proof.
  destruct (removeFromWhitelist_drops_one (sample_world "7,8,7") "7") as [H1 _].
  destruct (removeFromWhitelist_drops_one (sample_world "7 ,8") "9") as [_ H2].
  split.
  - rewrite H1. reflexivity.
  - rewrite (H2 eq_refl). reflexivity.
Defined.

(** X6. Following and then unfollowing a well-formed id that was not
    followed gives back the entries there were. *)
Theorem add_then_remove_round_trip (w : World) (id : string)
    (Hwf : well_formed_id id)
    (Hnew : isInWhitelist (settings w) id = false) :
  whitelist_items
    (run (removeFromWhitelist id) (run (addToWhitelist id) w).2).2
  = whitelist_items w.
Proof.
  set (w1 := (run (addToWhitelist id) w).2).
  assert (H1 : whitelist_items w1 = whitelist_items w ++ [id]).
  { unfold w1. rewrite whitelist_items_add by done.
    unfold isInWhitelist in Hnew. fold (whitelist_items w) in Hnew. by rewrite Hnew. }
  apply includes_false in Hnew. fold (whitelist_items w) in Hnew.
  destruct (whitelist_items_remove w1 id) as [[Hout _]|(l1 & l2 & E & Hl1 & ->)].
  - exfalso. apply Hout. rewrite H1. apply elem_of_app. right. by left.
  - rewrite H1 in E.
    assert (Hl2 : l2 = []).
    { destruct l2 as [|y l2] using rev_ind; [done|].
      rewrite app_comm_cons, app_assoc in E.
      apply app_inj_tail in E as [E _]. exfalso. apply Hnew. rewrite E.
      apply elem_of_app. right. by left. }
    subst l2. apply app_inj_tail in E as [E _]. by rewrite app_nil_r.
Qed.

Lemma add_then_remove_round_trip_witness :
  whitelist_items
    (run (removeFromWhitelist "42") (run (addToWhitelist "42") (sample_world "7, 8")).2).2
  = ["7"; "8"].
Proof.
  rewrite add_then_remove_round_trip; [reflexivity|repeat split; done|reflexivity].
Defined.

(** X7. [add] is idempotent on well-formed ids: a second [add] of the same
    id leaves the settings the first one produced. *)
Theorem addToWhitelist_idempotent (w : World) (id : string)
    (Hwf : well_formed_id id) :
  settings (run (addToWhitelist id) (run (addToWhitelist id) w).2).2
  = settings (run (addToWhitelist id) w).2.
Proof.
  set (w1 := (run (addToWhitelist id) w).2).
  assert (Hin : includes (whitelist_items w1) id = true).
  { unfold w1. rewrite whitelist_items_add by done. apply includes_true.
    destruct (includes (whitelist_items w) id) eqn:E.
    - by apply includes_true.
    - apply elem_of_app. right. by left. }
  by rewrite addToWhitelist_run, Hin.
Qed.

Lemma addToWhitelist_idempotent_witness :
  whitelistedIds
    (settings (run (addToWhitelist "42") (run (addToWhitelist "42") (sample_world "7")).2).2)
  = "7,42".
Proof.
  rewrite addToWhitelist_idempotent; [reflexivity|repeat split; done].
Defined.

(** ** Message and thread handlers *)

Section Handlers.

Context (host : Host).

Implicit Types (w : World) (payload : MessagePayload).

Lemma createNotification_run (t b : string) (c : ClickAction) (i : option string) w :
  run (createNotification t b c i) w
  = (Return tt, with_trace w (trace w ++ [EvNotify (shown t b c i)])).
Proof. reflexivity. Qed.

Lemma getUser_or_throw_run (id member : string) w :
  run (getUser_or_throw host id member) w =
  match getUser host id with
  | Some u => (Return u, w)
  | None => (Throw (TypeError_read "undefined" member), w)
  end.
Proof. unfold getUser_or_throw. by destruct (getUser host id). Qed.

Lemma truthy_str_true (o : option string) :
  truthy_str o = true ↔ ∃ s, o = Some s ∧ s ≠ "".
Proof.
  destruct o as [s|]; simpl.
  - rewrite negb_true_iff. split.
    + intros H%String.eqb_neq. by exists s.
    + intros (s' & [= <-] & Hne). by apply String.eqb_neq.
  - split; [done|]. by intros (s & ? & _).
Qed.

Lemma MESSAGE_CREATE_run payload w :
  run (MESSAGE_CREATE host payload) w =
  match acting_on payload with
  | Some (msg, a, c) =>
      if trackSentMessage (settings w) && shouldNotify host (settings w) a (Some c)
      then
        match getUser host a with
        | None => (Throw (TypeError_read "undefined" "username"), w)
        | Some u =>
            if msg_type msg =? 7
            then run (createNotification (username u +:+ " Joined a server")
                        "Click to jump to the message."
                        (SwitchToMsg (guildId payload) (Some c) (Some (msg_id msg)))
                        (avatarURL u)) w
            else
              match getMessageBody (settings w) payload with
              | Return b =>
                  run (createNotification (username u +:+ " Sent a message") b
                         (SwitchToMsg (guildId payload) (Some c) (Some (msg_id msg)))
                         (avatarURL u)) w
              | Throw e => (Throw e, w)
              end
        end
      else (Return tt, w)
  | None => (Return tt, w)
  end.
Proof.
  unfold MESSAGE_CREATE, acting_on. rewrite run_bind, run_get_world. cbv beta iota zeta.
  destruct (message payload) as [msg|]; [|done]. simpl.
  destruct (msg_author msg ≫= author_id) as [a|]; [|done]. simpl.
  destruct (channelId payload) as [c|]; simpl; [|by rewrite orb_true_r].
  destruct (String.eqb a ""); [done|]. destruct (String.eqb c ""); [done|]. simpl.
  destruct (trackSentMessage (settings w)); [|done]. simpl.
  destruct (shouldNotify host (settings w) a (Some c)); [|done]. simpl.
  rewrite run_bind, getUser_or_throw_run.
  destruct (getUser host a) as [u|]; [|done]. cbv beta iota.
  destruct (msg_type msg =? 7); [done|].
  rewrite run_bind, run_lift. by destruct (getMessageBody (settings w) payload).
Qed.

Lemma MESSAGE_UPDATE_run payload w :
  run (MESSAGE_UPDATE host payload) w =
  match acting_on payload with
  | Some (msg, a, c) =>
      if shouldNotify host (settings w) a (Some c)
      then
        match getUser host a with
        | None => (Throw (TypeError_read "undefined" "username"), w)
        | Some u =>
            match getMessageBody (settings w) payload with
            | Return b =>
                run (createNotification (username u +:+ " Edited a message") b
                       (SwitchToMsg (guildId payload) (Some c) (Some (msg_id msg)))
                       (avatarURL u)) w
            | Throw e => (Throw e, w)
            end
        end
      else (Return tt, w)
  | None => (Return tt, w)
  end.
Proof.
  unfold MESSAGE_UPDATE, acting_on. rewrite run_bind, run_get_world. cbv beta iota zeta.
  destruct (message payload) as [msg|]; [|done]. simpl.
  destruct (msg_author msg ≫= author_id) as [a|]; [|done]. simpl.
  destruct (channelId payload) as [c|]; simpl; [|by rewrite orb_true_r].
  destruct (String.eqb a ""); [done|]. destruct (String.eqb c ""); [done|]. simpl.
  destruct (shouldNotify host (settings w) a (Some c)); [|done]. simpl.
  rewrite run_bind, getUser_or_throw_run.
  destruct (getUser host a) as [u|]; [|done]. cbv beta iota.
  rewrite run_bind, run_lift. by destruct (getMessageBody (settings w) payload).
Qed.

Lemma THREAD_CREATE_run (payload : ThreadCreatePayload) w :
  run (THREAD_CREATE host payload) w =
  match channel payload with
  | Some ch =>
      match thread_id ch, thread_ownerId ch with
      | Some t, Some o =>
          if negb (String.eqb t "") && negb (String.eqb o "")
             && isInWhitelist (settings w) o && isNewlyCreated payload
          then
            match getUser host o with
            | None => (Throw (TypeError_read "undefined" "username"), w)
            | Some u =>
                run (createNotification ("New thread created by " +:+ username u)
                       "Click to view the thread."
                       (SwitchToMsg (thread_guild_id ch) (thread_parent_id ch) None)
                       (avatarURL u)) w
            end
          else (Return tt, w)
      | _, _ => (Return tt, w)
      end
  | None => (Return tt, w)
  end.
Proof.
  unfold THREAD_CREATE. rewrite run_bind, run_get_world. cbv beta iota zeta.
  destruct (channel payload) as [ch|]; [|done]. simpl.
  destruct (thread_id ch) as [t|]; [|by destruct (thread_ownerId ch)].
  destruct (thread_ownerId ch) as [o|]; simpl; [|by rewrite orb_true_r].
  destruct (String.eqb t ""); [done|]. destruct (String.eqb o ""); [done|]. simpl.
  destruct (isInWhitelist (settings w) o); [|done]. simpl.
  destruct (isNewlyCreated payload); [|done].
  rewrite run_bind, getUser_or_throw_run. by destruct (getUser host o).
Qed.

End Handlers.

(** X8. The message-created handler does nothing at all when tracking of
    sent messages is off, when the message is in the focused channel, or
    when its author is not followed. *)
Theorem MESSAGE_CREATE_silent (host : Host) (w : World) (payload : MessagePayload)
    (Hquiet : trackSentMessage (settings w) = false
              ∨ channelId payload = currentChannelId host
              ∨ (∀ a, (message payload ≫= msg_author) ≫= author_id = Some a →
                      isInWhitelist (settings w) a = false)) :
  run (MESSAGE_CREATE host payload) w = (Return tt, w).
Proof.
  rewrite MESSAGE_CREATE_run. unfold acting_on.
  destruct (message payload) as [msg|]; [|done].
  destruct (_ ≫= author_id) as [a|]; [|done].
  destruct (channelId payload) as [c|]; [|done].
  destruct (negb _ && negb _); [|done].
  destruct Hquiet as [->|[Hcur|Hout]]; [done| |].
  - unfold shouldNotify. rewrite <- Hcur, bool_decide_eq_true_2 by done.
    by rewrite !andb_false_r.
  - unfold shouldNotify. rewrite (Hout a eq_refl). by rewrite andb_false_r.
Qed.

Lemma MESSAGE_CREATE_silent_witness :
  run (MESSAGE_CREATE sample_host (sample_payload "hello")) (sample_world "7")
  = (Return tt, sample_world "7").
Proof.
  apply MESSAGE_CREATE_silent. right. right. intros a [= <-]. reflexivity.
Defined.

(** X9. A message of a followed author outside the focused channel, with
    tracking on and the author known to the user store, shows exactly one
    notification: titled "<username> Joined a server" with a fixed body for
    a join message (type 7), and "<username> Sent a message" with the body
    [getMessageBody] computes otherwise; its click leads to the message. *)
Theorem MESSAGE_CREATE_notifies (host : Host) (w : World) (payload : MessagePayload)
    (msg : Message) (author : Author) (a c b : string) (u : User)
    (Hmsg : message payload = Some msg)
    (Hauthor : msg_author msg = Some author)
    (Ha : author_id author = Some a) (Ha' : a ≠ "")
    (Hc : channelId payload = Some c) (Hc' : c ≠ "")
    (Htrack : trackSentMessage (settings w) = true)
    (Hfollowed : isInWhitelist (settings w) a = true)
    (Helsewhere : currentChannelId host ≠ Some c)
    (Hu : getUser host a = Some u)
    (Hb : getMessageBody (settings w) payload = Return b) :
  run (MESSAGE_CREATE host payload) w =
  (Return tt,
   with_trace w
     (trace w ++
      [EvNotify
         (shown (username u +:+ (if msg_type msg =? 7 then " Joined a server"
                                 else " Sent a message"))
            (if msg_type msg =? 7 then "Click to jump to the message." else b)
            (SwitchToMsg (guildId payload) (Some c) (Some (msg_id msg)))
            (avatarURL u))])).
Proof.
  rewrite MESSAGE_CREATE_run. unfold acting_on. rewrite Hmsg. simpl.
  rewrite Hauthor. simpl. rewrite Ha, Hc.
  rewrite !eqb_empty_false by done. simpl.
  unfold shouldNotify. rewrite Htrack, Hfollowed, bool_decide_eq_false_2 by done.
  simpl. rewrite Hu, Hb. by destruct (msg_type msg =? 7).
Qed.

Lemma MESSAGE_CREATE_notifies_witness :
  notifications
    (trace (run (MESSAGE_CREATE sample_host (sample_payload "hello world this is long"))
              (sample_world "42")).2)
  = [shown "ann Sent a message" "hello worl..."
       (SwitchToMsg (Some "g1") (Some "901") (Some "m1")) None].
Proof.
  rewrite (MESSAGE_CREATE_notifies sample_host (sample_world "42")
             (sample_payload "hello world this is long")
             (sample_message "hello world this is long")
             {| author_id := Some "42" |} "42" "901" "hello worl..." sample_user);
    try reflexivity; done.
Defined.

(** X10. The message-updated handler never consults the tracking switches:
    an edit by a followed author outside the focused channel is notified as
    "<username> Edited a message" with the body [getMessageBody] computes,
    whatever the settings' switches are; an edit in the focused channel or
    by an author who is not followed does nothing. *)
Theorem MESSAGE_UPDATE_notifies (host : Host) (w : World) (payload : MessagePayload)
    (msg : Message) (author : Author) (a c b : string) (u : User)
    (Hmsg : message payload = Some msg)
    (Hauthor : msg_author msg = Some author)
    (Ha : author_id author = Some a) (Ha' : a ≠ "")
    (Hc : channelId payload = Some c) (Hc' : c ≠ "")
    (Hu : getUser host a = Some u)
    (Hb : getMessageBody (settings w) payload = Return b) :
  run (MESSAGE_UPDATE host payload) w =
  if isInWhitelist (settings w) a && negb (bool_decide (currentChannelId host = Some c))
  then (Return tt,
        with_trace w
          (trace w ++
           [EvNotify
              (shown (username u +:+ " Edited a message") b
                 (SwitchToMsg (guildId payload) (Some c) (Some (msg_id msg)))
                 (avatarURL u))]))
  else (Return tt, w).
Proof.
  rewrite MESSAGE_UPDATE_run. unfold acting_on. rewrite Hmsg. simpl.
  rewrite Hauthor. simpl. rewrite Ha, Hc.
  rewrite !eqb_empty_false by done. simpl.
  unfold shouldNotify. destruct (_ && _); [|done]. by rewrite Hu, Hb.
Qed.

Lemma MESSAGE_UPDATE_notifies_witness :
  notifications
    (trace (run (MESSAGE_UPDATE sample_host (sample_payload "hello"))
              (initial_world (quiet_settings "42"))).2)
  = [shown "ann Edited a message" "Click to jump to the message"
       (SwitchToMsg (Some "g1") (Some "901") (Some "m1")) None].
Proof.
  rewrite (MESSAGE_UPDATE_notifies sample_host (initial_world (quiet_settings "42"))
             (sample_payload "hello") (sample_message "hello")
             {| author_id := Some "42" |} "42" "901"
             "Click to jump to the message" sample_user);
    try reflexivity; done.
Defined.

(** X11. The message-created, message-updated and thread-created handlers
    never change the settings, the snapshots or the logged-message cache,
    and add nothing to the trace but at most one notification. *)
Theorem handlers_keep_state (host : Host) (w : World) :
  (∀ payload, at_most_notified w (run (MESSAGE_CREATE host payload) w).2)
  ∧ (∀ payload, at_most_notified w (run (MESSAGE_UPDATE host payload) w).2)
  ∧ (∀ payload, at_most_notified w (run (THREAD_CREATE host payload) w).2).
Proof.
  assert (Hsame : at_most_notified w w) by (repeat split; by left).
  assert (Hone : ∀ t b c i,
            at_most_notified w (run (createNotification t b c i) w).2).
  { intros. rewrite createNotification_run. repeat split. right. by eexists. }
  split; [|split]; intros payload.
  - rewrite MESSAGE_CREATE_run. destruct (acting_on payload) as [[[msg a] c]|]; [|done].
    destruct (_ && _); [|done]. destruct (getUser host a); [|done].
    destruct (msg_type msg =? 7); [apply Hone|].
    destruct (getMessageBody _ _); [apply Hone|done].
  - rewrite MESSAGE_UPDATE_run. destruct (acting_on payload) as [[[msg a] c]|]; [|done].
    destruct (shouldNotify _ _ _ _); [|done]. destruct (getUser host a); [|done].
    destruct (getMessageBody _ _); [apply Hone|done].
  - rewrite THREAD_CREATE_run. destruct (channel payload) as [ch|]; [|done].
    destruct (thread_id ch); [|done]. destruct (thread_ownerId ch) as [o|]; [|done].
    destruct (_ && _); [|done]. destruct (getUser host o); [apply Hone|done].
Qed.

(** X12. The thread-created handler applies no focused-channel gate: for a
    thread with an id whose owner is followed and known to the user store,
    it shows "New thread created by <username>", with a click that leads to
    the parent channel, exactly when the thread is newly created. *)
Theorem THREAD_CREATE_notifies (host : Host) (w : World)
    (payload : ThreadCreatePayload) (ch : ThreadChannel) (t o : string) (u : User)
    (Hch : channel payload = Some ch)
    (Ht : thread_id ch = Some t) (Ht' : t ≠ "")
    (Ho : thread_ownerId ch = Some o) (Ho' : o ≠ "")
    (Hfollowed : isInWhitelist (settings w) o = true)
    (Hu : getUser host o = Some u) :
  run (THREAD_CREATE host payload) w =
  if isNewlyCreated payload
  then (Return tt,
        with_trace w
          (trace w ++
           [EvNotify
              (shown ("New thread created by " +:+ username u)
                 "Click to view the thread."
                 (SwitchToMsg (thread_guild_id ch) (thread_parent_id ch) None)
                 (avatarURL u))]))
  else (Return tt, w).
Proof.
  rewrite THREAD_CREATE_run, Hch, Ht, Ho.
  rewrite !eqb_empty_false by done. rewrite Hfollowed. simpl.
  destruct (isNewlyCreated payload); [|done]. by rewrite Hu.
Qed.

Lemma THREAD_CREATE_notifies_witness :
  currentChannelId sample_host = Some "900"
  ∧ (click <$> (onClick <$> notifications
       (trace (run (THREAD_CREATE sample_host (sample_thread true))
                 (sample_world "42")).2)))
    = [[TransitionToGuildSync "g1"; SelectChannelCall (Some "g1") (Some "900") None]]
  ∧ run (THREAD_CREATE sample_host (sample_thread false)) (sample_world "42")
    = (Return tt, sample_world "42").
Proof.
  split; [reflexivity|]. split.
  - rewrite (THREAD_CREATE_notifies sample_host (sample_world "42") (sample_thread true)
               _ "t1" "42" sample_user eq_refl eq_refl ltac:(done) eq_refl
               ltac:(done) eq_refl eq_refl).
    reflexivity.
  - rewrite (THREAD_CREATE_notifies sample_host (sample_world "42") (sample_thread false)
               _ "t1" "42" sample_user eq_refl eq_refl ltac:(done) eq_refl
               ltac:(done) eq_refl eq_refl).
    reflexivity.
Defined.

(** ** Bounds on the bodies *)

Lemma str_take_length_le (n : nat) (s : string) :
  (String.length (str_take n s) ≤ n)%nat.
Proof.
  revert s. induction n as [|n IH]; intros [|c s]; simpl; try lia.
  specialize (IH s). lia.
Qed.

Lemma clip_length (limit : Z) (text : string) :
  0 < limit → str_length (clip limit text) ≤ limit + 3.
Proof.
  intros Hpos. unfold clip. case_bool_decide as H.
  - unfold str_length. rewrite append_length. simpl.
    pose proof (str_take_length_le (Z.to_nat limit) text). lia.
  - lia.
Qed.

(** X13. With message bodies shown and a positive character limit, the
    body of a message-created or message-updated notification is never
    longer than the limit plus the three characters of the ellipsis. *)
Theorem getMessageBody_length_bound (store : Settings) (payload : MessagePayload)
    (b : string)
    (Hshow : showMessageBody store = true)
    (Hpos : 0 < charLimit store)
    (Hb : getMessageBody store payload = Return b) :
  str_length b ≤ charLimit store + 3.
Proof.
  unfold getMessageBody in Hb. rewrite Hshow in Hb. simpl in Hb.
  destruct (message payload) as [msg|]; [|done].
  rewrite clip_computed in Hb. injection Hb as <-. by apply clip_length.
Qed.

Lemma getMessageBody_length_bound_witness :
  str_length "hello worl..." ≤ 10 + 3.
Proof.
  exact (getMessageBody_length_bound (sample_settings "42" 10 true)
           (sample_payload "hello world this is long") "hello worl..."
           eq_refl eq_refl eq_refl).
Defined.

(** X14. The message-deleted body is never longer than 105 characters (100
    of content, the ellipsis and the two quotes), and a content of at most
    100 characters is shown whole between the quotes. *)
Theorem deletedBody_length_bound (content : string) :
  str_length (deletedBody content) ≤ 105
  ∧ (str_length content ≤ 100 → deletedBody content = quote +:+ content +:+ quote).
Proof.
  rewrite deletedBody_fixed_limit. split.
  - pose proof (clip_length 100 content ltac:(lia)) as H.
    unfold str_length in *. rewrite !append_length. simpl. lia.
  - intros Hshort. unfold clip. rewrite bool_decide_eq_false_2; [done|lia].
Qed.

Lemma deletedBody_length_bound_witness :
  deletedBody "bye" = quote +:+ "bye" +:+ quote.
Proof. apply deletedBody_length_bound. by vm_compute. Defined.

(** ** Message-deleted notification *)

(** X15. A deleted message still held by the live store, whose author is
    followed and known to the user store and whose channel is not the
    focused one, is notified as "<username> Deleted a message!" after the
    single live lookup: nothing is imported, the caches and settings are
    left alone, and no tracking or body switch is consulted. *)
Theorem MESSAGE_DELETE_notifies (host host' : Host) (imports : Imports)
    (payload : MessageDeletePayload) (w : World) (id c g a content : string)
    (m : Message) (author : Author) (u : User)
    (Hid : del_id payload = Some id) (Hid' : id ≠ "")
    (Hc : del_channelId payload = Some c) (Hc' : c ≠ "")
    (Hg : del_guildId payload = Some g) (Hg' : g ≠ "")
    (Hlive : getMessage host c id = Some m)
    (Hauthor : msg_author m = Some author)
    (Ha : author_id author = Some a)
    (Hfollowed : isInWhitelist (settings w) a = true)
    (Helsewhere : currentChannelId host ≠ msg_channel_id m)
    (Hu : getUser host a = Some u)
    (Hcontent : msg_content m = Some content) :
  run (MESSAGE_DELETE host host' imports payload) w =
  (Return tt,
   with_trace w
     (trace w ++
      [EvLiveLookup c id;
       EvNotify
         (shown (username u +:+ " Deleted a message!") (deletedBody content)
            (SelectChannel (Some g) (msg_channel_id m) (msg_id m))
            (avatarURL u))])).
Proof.
  unfold MESSAGE_DELETE. rewrite Hid, Hc, Hg.
  rewrite !truthy_str_Some by done. simpl negb. simpl orb. cbv iota.
  rewrite run_bind, resolveDeleted_run, Hlive. cbv beta iota.
  rewrite run_bind, run_get_world. cbv beta iota zeta.
  rewrite Hauthor. simpl. rewrite Ha.
  unfold shouldNotify. simpl. rewrite Hfollowed, bool_decide_eq_false_2 by done.
  simpl. rewrite run_bind, getUser_or_throw_run, Hu. cbv beta iota.
  rewrite Hcontent, createNotification_run. unfold with_trace. simpl.
  by rewrite <- app_assoc.
Qed.

Lemma MESSAGE_DELETE_notifies_witness :
  run (MESSAGE_DELETE (sample_host_holding (sample_message "bye")) sample_host
         sample_imports sample_delete_payload)
    (initial_world (quiet_settings "42"))
  = (Return tt,
     with_trace (initial_world (quiet_settings "42"))
       [EvLiveLookup "901" "m1";
        EvNotify
          (shown "ann Deleted a message!" (quote +:+ "bye" +:+ quote)
             (SelectChannel (Some "g1") (Some "901") "m1") None)]).
Proof.
  exact (MESSAGE_DELETE_notifies (sample_host_holding (sample_message "bye"))
           sample_host sample_imports sample_delete_payload
           (initial_world (quiet_settings "42")) "m1" "901" "g1" "42" "bye"
           (sample_message "bye") {| author_id := Some "42" |} sample_user
           eq_refl ltac:(done) eq_refl ltac:(done) eq_refl ltac:(done)
           eq_refl eq_refl eq_refl eq_refl ltac:(done) eq_refl eq_refl).
Defined.

(** ** Navigation *)

(** X16. [switchToMsg] selects a channel exactly when a channel is given,
    always under a guild that is not empty: the given guild, or "@me" when
    there is none; and it moves to a guild, before selecting, exactly when
    a guild is given. *)
Theorem switchToMsg_calls (guildId channelId messageId : option string) :
  switchToMsg guildId channelId messageId =
  match truthy_str guildId, truthy_str channelId with
  | true, true =>
      [TransitionToGuildSync (default "" guildId);
       SelectChannelCall guildId channelId messageId]
  | true, false => [TransitionToGuildSync (default "" guildId)]
  | false, true => [SelectChannelCall (Some "@me") channelId messageId]
  | false, false => []
  end
  ∧ (∀ g c m, SelectChannelCall g c m ∈ switchToMsg guildId channelId messageId →
              truthy_str g = true ∧ truthy_str c = true).
Proof.
  assert (E : switchToMsg guildId channelId messageId =
              match truthy_str guildId, truthy_str channelId with
              | true, true =>
                  [TransitionToGuildSync (default "" guildId);
                   SelectChannelCall guildId channelId messageId]
              | true, false => [TransitionToGuildSync (default "" guildId)]
              | false, true => [SelectChannelCall (Some "@me") channelId messageId]
              | false, false => []
              end).
  { unfold switchToMsg, guild_or_me.
    destruct (truthy_str guildId) eqn:Eg, (truthy_str channelId); try done.
    apply truthy_str_true in Eg as (s & -> & _). done. }
  split; [exact E|]. intros g c m. rewrite E.
  destruct (truthy_str guildId) eqn:Eg, (truthy_str channelId) eqn:Ec; intros H;
    repeat (apply elem_of_cons in H as [H|H]);
    try (by apply elem_of_nil in H); try discriminate H;
    injection H as -> -> ->; by split.
Qed.

Lemma switchToMsg_calls_witness :
  switchToMsg None (Some "901") (Some "m1")
  = [SelectChannelCall (Some "@me") (Some "901") (Some "m1")]
  ∧ switchToMsg (Some "g1") None None = [TransitionToGuildSync "g1"].
Proof.
  split.
  - exact (proj1 (switchToMsg_calls None (Some "901") (Some "m1"))).
  - exact (proj1 (switchToMsg_calls (Some "g1") None None)).
Defined.

(** ** Dynamic import *)

(** X17. [importLoggedMessages] never throws and changes nothing but the
    trace; the module that loads first wins: when the first location loads,
    the second is not tried; the console error is written exactly when both
    fail, and then the result is [null]. *)
Theorem importLoggedMessages_first_wins (imports : Imports) (w : World) :
  ∃ evs, run (importLoggedMessages imports) w
         = (Return (imported_cache imports), with_trace w (trace w ++ evs))
  ∧ notifications evs = []
  ∧ (∀ module, equicordplugins imports = Some module →
       evs = [EvImport import_path_equicord]
       ∧ imported_cache imports = mod_loggedMessages module)
  ∧ (equicordplugins imports = None → ∀ module, userplugins imports = inl module →
       evs = [EvImport import_path_equicord; EvImport import_path_userplugins]
       ∧ imported_cache imports = mod_loggedMessages module)
  ∧ (equicordplugins imports = None → ∀ error, userplugins imports = inr error →
       evs = [EvImport import_path_equicord; EvImport import_path_userplugins;
              EvLog LConsoleError ("Failed to load MessageLoggerEnhanced: " +:+ error)]
       ∧ imported_cache imports = None).
Proof.
  exists (import_events imports). split; [apply importLoggedMessages_run|].
  unfold import_events, imported_cache.
  destruct (equicordplugins imports) as [m1|]; [|destruct (userplugins imports)];
    (split; [done|]); repeat split; intros; by simplify_eq.
Qed.

Lemma importLoggedMessages_first_wins_witness :
  (run (importLoggedMessages sample_imports) (sample_world "42")).1 = Return None.
Proof.
  destruct (importLoggedMessages_first_wins sample_imports (sample_world "42"))
    as (evs & -> & _).
  reflexivity.
Defined.

(** ** Payload normalizer: collisions and fixed points *)

Section NormalizerMore.

Implicit Types (k key : string) (v : value) (fields acc : list (string * value)).

Lemma value_ind_nested (P : value → Prop) :
  P VUndefined → P VNull → (∀ b, P (VBool b)) → (∀ z, P (VNum z)) →
  (∀ s, P (VStr s)) →
  (∀ elems, Forall P elems → P (VArr elems)) →
  (∀ fields, Forall (fun kv => P kv.2) fields → P (VObj fields)) →
  ∀ v, P v.
Proof.
  intros Hu Hn Hb Hz Hs Ha Ho. fix IH 1.
  intros [| |b|z|s|elems|fields];
    [exact Hu|exact Hn|apply Hb|apply Hz|apply Hs| |].
  - apply Ha. induction elems as [|x elems IHl]; constructor; [apply IH|exact IHl].
  - apply Ho. induction fields as [|[k x] fields IHf]; constructor;
      [apply IH|exact IHf].
Qed.

Lemma convert_step_plain acc k v :
  has_underscore k = false → array_index k = None →
  convertSnakeCaseToCamelCase v = v → k ∉ acc.*1 →
  convert_step acc (k, v) = acc ++ [(k, v)].
Proof.
  intros Hk Hidx Hv Hfresh. unfold convert_step. simpl.
  rewrite (proj1 (camelCaseKey_plain_aux k) Hk), Hv. unfold obj_set.
  rewrite (proj2 (has_key_false k acc) Hfresh). by rewrite Hidx.
Qed.

Lemma fold_convert_step_plain fields acc :
  Forall (fun kv => has_underscore kv.1 = false ∧ array_index kv.1 = None
                    ∧ convertSnakeCaseToCamelCase kv.2 = kv.2) fields →
  NoDup (acc.*1 ++ fields.*1) →
  fold_left convert_step fields acc = acc ++ fields.
Proof.
  revert acc. induction fields as [|[k v] fields IH]; intros acc Hall Hnd.
  { by rewrite app_nil_r. }
  apply Forall_cons in Hall as [(Hk & Hidx & Hv) Hall]. simpl in Hk, Hidx, Hv.
  rewrite fmap_cons in Hnd. cbn [fst] in Hnd.
  change (fold_left convert_step ((k, v) :: fields) acc)
    with (fold_left convert_step fields (convert_step acc (k, v))).
  rewrite convert_step_plain; try done.
  - rewrite IH; [by rewrite <- app_assoc|done|].
    by rewrite fmap_app, <- app_assoc.
  - apply NoDup_app in Hnd as (_ & Hdisj & _). intros Hin.
    apply (Hdisj k Hin). by left.
Qed.

Lemma forallb_Forall {A : Type} (f : A → bool) (l : list A) :
  forallb f l = true ↔ Forall (fun x => f x = true) l.
Proof.
  induction l as [|x l IH]; simpl; [by split; [constructor|]|].
  rewrite andb_true_iff, IH, Forall_cons. done.
Qed.

End NormalizerMore.

(** X18. When several keys of an object share a camelCase form, the
    normalized object holds that key once, with the normalized value of the
    last of them: the earlier values are dropped. *)
Theorem convert_last_key_wins (before after : list (string * value))
    (k : string) (v : value)
    (Hlast : camelCaseKey k ∉ camelCaseKey <$> after.*1) :
  prop_read (convertSnakeCaseToCamelCase (VObj (before ++ (k, v) :: after)))
    (camelCaseKey k)
  = Return (convertSnakeCaseToCamelCase v).
Proof.
  rewrite convert_VObj. simpl prop_read. f_equal. revert Hlast.
  induction after as [|[k0 v0] after IH] using rev_ind; intros Hlast.
  - rewrite fold_left_app. simpl. unfold convert_step at 1. simpl.
    apply obj_get_set_eq.
  - rewrite app_comm_cons, app_assoc, fold_left_app. simpl.
    unfold convert_step at 1. simpl.
    rewrite !fmap_app in Hlast. simpl in Hlast.
    rewrite obj_get_set_ne.
    + apply IH. intros Hin. apply Hlast, elem_of_app. by left.
    + intros E. apply Hlast, elem_of_app. right. rewrite E. by left.
Qed.

Lemma convert_last_key_wins_witness :
  convertSnakeCaseToCamelCase
    (VObj [("global_name", VStr "old"); ("bio", VStr "b"); ("globalName", VStr "new")])
  = VObj [("globalName", VStr "new"); ("bio", VStr "b")]
  ∧ prop_read
      (convertSnakeCaseToCamelCase
         (VObj [("global_name", VStr "old"); ("bio", VStr "b");
                ("globalName", VStr "new")]))
      "globalName"
    = Return (VStr "new").
Proof.
  split; [reflexivity|].
  apply (convert_last_key_wins
           [("global_name", VStr "old"); ("bio", VStr "b")] [] "globalName"
           (VStr "new")).
  apply not_elem_of_nil.
Defined.

(** X19. A value whose objects, at every depth, have pairwise distinct
    keys that hold no underscore and are no array indices is a fixed point
    of the normalizer: it comes back unchanged, key order included. *)
Theorem convert_plain_keyed_fixed (v : value) (Hplain : plain_keyed v = true) :
  convertSnakeCaseToCamelCase v = v.
Proof.
  revert Hplain. induction v as [| | | | |elems IH|fields IH] using value_ind_nested;
    intros Hplain; try done.
  - simpl. f_equal. simpl in Hplain. apply forallb_Forall in Hplain.
    induction elems as [|x elems IHl]; [done|].
    apply Forall_cons in IH as [IHx IH]. apply Forall_cons in Hplain as [Hx Hplain].
    simpl. rewrite IHx by done. f_equal. by apply IHl.
  - rewrite convert_VObj. f_equal. simpl in Hplain.
    apply andb_true_iff in Hplain as [Hall Hnd].
    apply forallb_Forall in Hall. apply bool_decide_eq_true in Hnd.
    rewrite fold_convert_step_plain; [done| |done].
    clear Hnd. induction fields as [|[k x] fields IHf]; [constructor|].
    apply Forall_cons in IH as [IHx IH]. apply Forall_cons in Hall as [Hx Hall].
    simpl in Hx. apply andb_true_iff in Hx as [Hx Hpx].
    apply andb_true_iff in Hx as [Hus Hidx].
    apply negb_true_iff in Hus. apply bool_decide_eq_true in Hidx.
    constructor; [|by apply IHf]. simpl. split; [done|]. split; [done|].
    by apply IHx.
Qed.

Lemma convert_plain_keyed_fixed_witness :
  convertSnakeCaseToCamelCase
    (convertSnakeCaseToCamelCase (sample_profile "she"))
  = convertSnakeCaseToCamelCase (sample_profile "she").
Proof.
  apply convert_plain_keyed_fixed. by vm_compute.
Defined.

(** ** Context menu: patching again *)

(** X20. The patch only ever appends to the children, and patching the
    result again changes nothing: the item is added once, however often the
    menu is patched. *)
Theorem contextMenuPatch_idempotent (host : Host) (store : Settings)
    (children r : list (option Element)) (props : option MenuProps)
    (Hr : contextMenuPatch host store children props = Return r) :
  contextMenuPatch host store r props = Return r
  ∧ ∃ added, r = children ++ added.
Proof.
  unfold contextMenuPatch in *. destruct props as [props|].
  - destruct (getCurrentUser host) as [me|]; [|done].
    destruct (decide (props_user_id props = user_id me)).
    + injection Hr as <-. split; [done|]. exists []. by rewrite app_nil_r.
    + destruct (negb (existsb _ children)) eqn:E.
      * injection Hr as <-. split; [|by eexists].
        rewrite existsb_app. simpl. by rewrite orb_true_r.
      * injection Hr as <-. rewrite E. split; [done|]. exists []. by rewrite app_nil_r.
  - injection Hr as <-. split; [done|]. exists []. by rewrite app_nil_r.
Qed.

Lemma contextMenuPatch_idempotent_witness :
  ∃ r, contextMenuPatch sample_host (sample_settings "42" 10 true) [None]
         (Some {| props_user_id := "42" |}) = Return r
       ∧ length r = 3%nat
       ∧ contextMenuPatch sample_host (sample_settings "42" 10 true) r
           (Some {| props_user_id := "42" |}) = Return r.
Proof.
  eexists. split; [reflexivity|]. split; [reflexivity|].
  apply (contextMenuPatch_idempotent sample_host (sample_settings "42" 10 true)
           [None] _ (Some {| props_user_id := "42" |})).
  reflexivity.
Defined.

(** ** Profile diff *)

Section ProfileDiff.

Implicit Types (p : string → Outcome bool) (keys kept : list string).

Lemma filter_keys_cons p k keys :
  filter_keys p (k :: keys) =
  match p k with
  | Return b =>
      match filter_keys p keys with
      | Return kept => Return (if b then k :: kept else kept)
      | Throw e => Throw e
      end
  | Throw e => Throw e
  end.
Proof. cbn [filter_keys]. destruct (p k); [|done]. simpl. by destruct (filter_keys p keys). Qed.

Lemma filter_keys_kept p keys kept :
  filter_keys p keys = Return kept →
  sublist kept keys
  ∧ Forall (fun k => p k = Return true) kept
  ∧ (∀ k, k ∈ keys → ∃ b, p k = Return b ∧ (b = true → k ∈ kept)).
Proof.
  revert kept. induction keys as [|k keys IH]; intros kept H.
  { injection H as <-. split; [done|]. split; [constructor|].
    by intros k ?%elem_of_nil. }
  rewrite filter_keys_cons in H. destruct (p k) as [b|] eqn:Ek; [|done].
  destruct (filter_keys p keys) as [kept0|] eqn:Ekeys; [|done].
  injection H as <-. destruct (IH kept0 eq_refl) as (Hsub & Hall & Hin).
  split; [|split].
  - destruct b; [by apply sublist_skip|by apply sublist_cons].
  - destruct b; [by constructor|done].
  - intros k' [->|Hk']%elem_of_cons.
    + exists b. split; [done|]. intros ->. by left.
    + destruct (Hin k' Hk') as (b' & Hb' & Hkept). exists b'. split; [done|].
      intros Hb. destruct b; [right|]; by apply Hkept.
Qed.

End ProfileDiff.

(** X21. The keys the profile handler reports are keys of the fetched
    user, in their order, and each of them is one of the tracked field
    names: a change of any other field is never reported. *)
Theorem changedKeys_are_tracked (fields : list (string * value)) (oldUser : value)
    (changedKeys : list string)
    (Hdiff : filter_keys (key_changed fields oldUser) (obj_keys fields)
             = Return changedKeys) :
  sublist changedKeys (obj_keys fields)
  ∧ Forall (fun k => k ∈ tracked_fields) changedKeys.
Proof.
  destruct (filter_keys_kept _ _ _ Hdiff) as (Hsub & Hall & _).
  split; [done|]. eapply Forall_impl; [exact Hall|]. intros k Hk.
  unfold key_changed in Hk. destruct (prop_read oldUser "user") as [ou|]; [|done].
  simpl in Hk. destruct (prop_read ou k); [|done]. simpl in Hk.
  injection Hk as Hk. apply andb_true_iff in Hk as [_ Hk]. by apply includes_true.
Qed.

Lemma changedKeys_are_tracked_witness :
  let fields := [("id", VStr "42"); ("username", VStr "bob"); ("pronouns", VStr "x")] in
  let oldUser := VObj [("user", VObj [("id", VStr "42"); ("username", VStr "ann");
                                      ("pronouns", VStr "y")])] in
  filter_keys (key_changed fields oldUser) (obj_keys fields) = Return ["username"]
  ∧ Forall (fun k => k ∈ tracked_fields) ["username"].
Proof.
  split; [reflexivity|].
  refine (proj2 (changedKeys_are_tracked
                   [("id", VStr "42"); ("username", VStr "bob"); ("pronouns", VStr "x")]
                   (VObj [("user", VObj [("id", VStr "42"); ("username", VStr "ann");
                                         ("pronouns", VStr "y")])])
                   ["username"] _)).
  reflexivity.
Defined.

(** X22. A tracked field of the fetched user that holds an object or an
    array is reported as changed on every fetch that reaches the
    comparison, whatever the snapshot holds: the comparison is by identity
    against a freshly built snapshot. *)
Theorem object_field_always_reported (fields : list (string * value))
    (oldUser : value) (changedKeys : list string) (k : string)
    (Hdiff : filter_keys (key_changed fields oldUser) (obj_keys fields)
             = Return changedKeys)
    (Hkey : k ∈ obj_keys fields)
    (Htracked : k ∈ tracked_fields)
    (Hobject : is_scalar (obj_get k fields) = false) :
  k ∈ changedKeys.
Proof.
  destruct (filter_keys_kept _ _ _ Hdiff) as (_ & _ & Hin).
  destruct (Hin k Hkey) as (b & Hb & Hkept). apply Hkept.
  unfold key_changed in Hb. destruct (prop_read oldUser "user") as [ou|]; [|done].
  simpl in Hb. destruct (prop_read ou k) as [theirs|]; [|done]. simpl in Hb.
  injection Hb as <-. apply includes_true in Htracked. rewrite Htracked.
  by destruct (obj_get k fields).
Qed.

Lemma object_field_always_reported_witness :
  let fields := [("id", VStr "42"); ("clan", VObj [("tag", VStr "T")])] in
  let oldUser := VObj [("user", VObj [("id", VStr "42");
                                      ("clan", VObj [("tag", VStr "T")])])] in
  filter_keys (key_changed fields oldUser) (obj_keys fields) = Return ["clan"]
  ∧ "clan" ∈ ["clan"].
Proof.
  split; [reflexivity|].
  refine (object_field_always_reported
            [("id", VStr "42"); ("clan", VObj [("tag", VStr "T")])]
            (VObj [("user", VObj [("id", VStr "42");
                                  ("clan", VObj [("tag", VStr "T")])])])
            ["clan"] "clan" _ _ _ _).
  - reflexivity.
  - by apply (bool_decide_unpack _).
  - by apply (bool_decide_unpack _).
  - reflexivity.
Defined.

(** X23. The profile handler does nothing at all for a payload whose user
    is not followed (or has no id), and when tracking of profile changes is
    off: no snapshot is stored or replaced. *)
Theorem USER_PROFILE_FETCH_SUCCESS_silent (host : Host) (w : World)
    (payload user : value)
    (Huser : prop_read payload "user" = Return user)
    (Hquiet : trackProfileChanges (settings w) = false
              ∨ isInWhitelist_value (settings w) (prop_read_opt user "id") = false) :
  run (USER_PROFILE_FETCH_SUCCESS host payload) w = (Return tt, w).
Proof.
  unfold USER_PROFILE_FETCH_SUCCESS. rewrite run_bind, run_get_world.
  cbv beta iota. rewrite run_bind, run_lift, Huser. cbv beta iota zeta.
  destruct Hquiet as [-> | ->].
  - by rewrite !orb_true_r.
  - by rewrite orb_true_r.
Qed.

Lemma USER_PROFILE_FETCH_SUCCESS_silent_witness :
  run (USER_PROFILE_FETCH_SUCCESS sample_host (sample_profile "she")) (sample_world "7")
  = (Return tt, sample_world "7").
Proof.
  eapply USER_PROFILE_FETCH_SUCCESS_silent; [reflexivity|]. right. reflexivity.
Defined.

(** X24. A cached snapshot that is truthy but has no [user] member makes
    the handler throw on a fetch of that followed user and leaves the world
    as it was, so the snapshot is never replaced and every later fetch
    throws again. *)
Theorem USER_PROFILE_FETCH_SUCCESS_broken_snapshot (host : Host) (w : World)
    (pfields fields : list (string * value)) (id : string) (snapshot : value)
    (Huser : obj_get "user" pfields = VObj fields)
    (Hid : obj_get "id" fields = VStr id) (Hne : id ≠ "")
    (Hwl : isInWhitelist (settings w) id = true)
    (Htrack : trackProfileChanges (settings w) = true)
    (Hsnap : oldUsers w !! id = Some snapshot)
    (Htruthy : truthy snapshot = true)
    (Hbroken : prop_read (convertSnakeCaseToCamelCase snapshot) "user"
               = Return VUndefined) :
  ∃ key, run (USER_PROFILE_FETCH_SUCCESS host (VObj pfields)) w
         = (Throw (TypeError_read "undefined" key), w).
Proof.
  rewrite (USER_PROFILE_FETCH_SUCCESS_run host w pfields fields id) by done.
  cbv zeta. rewrite (usable_snapshot_own w id snapshot Hsnap), Htruthy.
  destruct fields as [|[k v] fields]; [done|]. exists k.
  unfold obj_keys. rewrite fmap_cons, filter_keys_cons.
  unfold key_changed at 1. by rewrite Hbroken.
Qed.

Lemma USER_PROFILE_FETCH_SUCCESS_broken_snapshot_witness :
  ∃ key, run (USER_PROFILE_FETCH_SUCCESS sample_host (sample_profile "she"))
           (with_oldUsers (sample_world "42") {[ "42" := VObj [] ]})
         = (Throw (TypeError_read "undefined" key),
            with_oldUsers (sample_world "42") {[ "42" := VObj [] ]}).
Proof.
  exact (USER_PROFILE_FETCH_SUCCESS_broken_snapshot sample_host
           (with_oldUsers (sample_world "42") {[ "42" := VObj [] ]})
           [("user", VObj [("id", VStr "42"); ("username", VStr "ann");
                           ("avatar", VNull); ("pronouns", VStr "she")])]
           [("id", VStr "42"); ("username", VStr "ann");
            ("avatar", VNull); ("pronouns", VStr "she")]
           "42" (VObj []) eq_refl eq_refl ltac:(done) eq_refl eq_refl
           eq_refl eq_refl eq_refl).
Defined.

(** ** Follow and unfollow *)

Section Follow.

Context (host : Host) (api : HostApi).

Implicit Types (w : World) (id : string).

Lemma addToWhitelist_caches w id :
  (run (addToWhitelist id) w).1 = Return tt
  ∧ oldUsers (run (addToWhitelist id) w).2 = oldUsers w
  ∧ loggedMessages (run (addToWhitelist id) w).2 = loggedMessages w.
Proof. rewrite addToWhitelist_run. by destruct (includes _ _). Qed.

Lemma removeFromWhitelist_caches w id :
  (run (removeFromWhitelist id) w).1 = Return tt
  ∧ oldUsers (run (removeFromWhitelist id) w).2 = oldUsers w
  ∧ loggedMessages (run (removeFromWhitelist id) w).2 = loggedMessages w.
Proof. rewrite removeFromWhitelist_run. by destruct (_ =? _). Qed.

(** Caching a profile never throws and never touches the settings. *)
Lemma cacheProfile_run id w :
  ∃ lvl msg,
    run (cacheProfile api id) w =
    (Return tt,
     with_trace
       (match getProfile api id with
        | inl body =>
            with_oldUsers w (<[id := convertSnakeCaseToCamelCase body]> (oldUsers w))
        | inr _ => w
        end)
       (trace w ++ [EvLog lvl msg]))
    ∧ (∀ error, getProfile api id = inr error →
         lvl = LError
         ∧ msg = "Failed to cache user " +:+ id +:+ " during follow: " +:+ error).
Proof.
  unfold cacheProfile. destruct (getProfile api id) as [body|error].
  - rewrite run_bind. unfold set_oldUser at 1. unfold run at 2. cbv beta iota.
    destruct (cachedName _) as [name|error]; eexists _, _; (split; [reflexivity|done]).
  - eexists _, _. split; [reflexivity|]. by intros ? [= <-].
Qed.

Lemma followUser_run id w (u : User) :
  getUser host id = Some u →
  run (followUser host api id) w =
  (Return {| toast_message := "Following " +:+ displayName api u |},
   (run (cacheProfile api id) (run (addToWhitelist id) w).2).2).
Proof.
  intros Hu. unfold followUser. rewrite run_bind, getUser_or_throw_run, Hu.
  cbv beta iota zeta. rewrite run_bind.
  pose proof (addToWhitelist_caches w id) as (Hadd & _).
  destruct (run (addToWhitelist id) w) as [o w1]. simpl in Hadd. subst o.
  cbv beta iota. cbn [snd]. rewrite run_bind.
  destruct (cacheProfile_run id w1) as (lvl & msg & -> & _). done.
Qed.

Lemma unfollowUser_run id w (u : User) :
  getUser host id = Some u →
  run (unfollowUser host api id) w =
  (Return {| toast_message := "Stopped following " +:+ displayName api u |},
   with_oldUsers (run (removeFromWhitelist id) w).2
     (delete id (oldUsers (run (removeFromWhitelist id) w).2))).
Proof.
  intros Hu. unfold unfollowUser. rewrite run_bind, getUser_or_throw_run, Hu.
  cbv beta iota zeta. rewrite run_bind.
  pose proof (removeFromWhitelist_caches w id) as (Hrem & _).
  destruct (run (removeFromWhitelist id) w) as [o w1]. simpl in Hrem. subst o.
  done.
Qed.

Lemma contained_after_add w id :
  well_formed_id id → includes (whitelist_items (run (addToWhitelist id) w).2) id = true.
Proof.
  intros Hwf. rewrite whitelist_items_add by done. apply includes_true.
  destruct (includes (whitelist_items w) id) eqn:E.
  - by apply includes_true.
  - apply elem_of_app. right. by left.
Qed.

Lemma not_contained_after_remove w id :
  (occurrences id (whitelist_items w) ≤ 1)%nat →
  includes (whitelist_items (run (removeFromWhitelist id) w).2) id = false.
Proof.
  intros Honce. apply includes_false.
  destruct (whitelist_items_remove w id) as [[Hout ->]|(l1 & l2 & E & Hl1 & ->)];
    [done|].
  rewrite E, occurrences_split in Honce.
  assert (occurrences id l2 = 0%nat) as Hl2%occurrences_zero by lia.
  rewrite elem_of_app. by intros [?|?].
Qed.

End Follow.

(** X25. Following or unfollowing an id the user store does not know
    throws before anything is done: no toast, and the whitelist and the
    snapshots stay as they were, so such a user cannot be unfollowed through
    [unfollowUser]. *)
Theorem follow_unknown_user_throws (host : Host) (api : HostApi) (id : string)
    (w : World) (Hunknown : getUser host id = None) :
  run (followUser host api id) w
  = (Throw (TypeError_read "undefined" "usernameNormalized"), w)
  ∧ run (unfollowUser host api id) w
    = (Throw (TypeError_read "undefined" "usernameNormalized"), w).
Proof.
  unfold followUser, unfollowUser.
  by rewrite !run_bind, !getUser_or_throw_run, Hunknown.
Qed.

Lemma follow_unknown_user_throws_witness :
  isInWhitelist (settings (run (unfollowUser sample_host sample_api "7")
                             (sample_world "7")).2) "7" = true.
Proof.
  rewrite (proj2 (follow_unknown_user_throws sample_host sample_api "7"
                    (sample_world "7") eq_refl)).
  reflexivity.
Defined.

(** X26. Unfollowing a known user whose id is among the entries at most
    once shows the "Stopped following" toast, leaves the id not followed,
    deletes its snapshot and touches no other snapshot. *)
Theorem unfollowUser_forgets (host : Host) (api : HostApi) (id : string)
    (w : World) (u : User)
    (Hu : getUser host id = Some u)
    (Honce : (occurrences id (whitelist_items w) ≤ 1)%nat) :
  let r := run (unfollowUser host api id) w in
  r.1 = Return {| toast_message := "Stopped following " +:+ displayName api u |}
  ∧ isInWhitelist (settings r.2) id = false
  ∧ oldUsers r.2 !! id = None
  ∧ (∀ other, other ≠ id → oldUsers r.2 !! other = oldUsers w !! other).
Proof.
  cbv zeta. rewrite (unfollowUser_run host api id w u Hu).
  pose proof (removeFromWhitelist_caches w id) as (_ & Hold & _).
  split; [done|]. split; [|split].
  - by apply not_contained_after_remove.
  - simpl. apply lookup_delete_eq.
  - intros other Hother. simpl. rewrite lookup_delete_ne by done. by rewrite Hold.
Qed.

Lemma unfollowUser_forgets_witness :
  let r := run (unfollowUser sample_host sample_api "42")
             (sample_world_with_snapshot (sample_profile "she")) in
  r.1 = Return {| toast_message := "Stopped following ann" |}
  ∧ isInWhitelist (settings r.2) "42" = false
  ∧ oldUsers r.2 !! "42" = None.
Proof.
  destruct (unfollowUser_forgets sample_host sample_api "42"
              (sample_world_with_snapshot (sample_profile "she")) sample_user
              eq_refl ltac:(vm_compute; lia)) as (H1 & H2 & H3 & _).
  split; [exact H1|]. split; [exact H2|exact H3].
Defined.



(** X28. Invoking the context-menu item toggles the membership: for a known
    user whose well-formed id is among the entries at most once, the id is
    followed afterwards exactly when it was not followed before. *)
Theorem menuAction_toggles (host : Host) (api : HostApi) (id : string)
    (w : World) (u : User)
    (Hu : getUser host id = Some u)
    (Hwf : well_formed_id id)
    (Honce : (occurrences id (whitelist_items w) ≤ 1)%nat) :
  isInWhitelist (settings (run (menuAction host api (ToggleFollow id)) w).2) id
  = negb (isInWhitelist (settings w) id).
Proof.
  unfold menuAction. rewrite run_bind, run_get_world. cbv beta iota.
  destruct (isInWhitelist (settings w) id) eqn:E.
  - rewrite (unfollowUser_run host api id w u Hu). simpl.
    by apply not_contained_after_remove.
  - rewrite (followUser_run host api id w u Hu).
    destruct (cacheProfile_run api id (run (addToWhitelist id) w).2)
      as (lvl & msg & -> & _).
    pose proof (contained_after_add w id Hwf) as Hin. simpl.
    by destruct (getProfile api id).
Qed.

Lemma menuAction_toggles_witness :
  isInWhitelist
    (settings (run (menuAction sample_host sample_api (ToggleFollow "42"))
                 (sample_world "7, 42")).2) "42" = false
  ∧ isInWhitelist
      (settings (run (menuAction sample_host sample_api (ToggleFollow "42"))
                   (sample_world "7")).2) "42" = true.
Proof.
  split.
  - rewrite (menuAction_toggles sample_host sample_api "42" (sample_world "7, 42")
               sample_user eq_refl ltac:(repeat split; done) ltac:(vm_compute; lia)).
    reflexivity.
  - rewrite (menuAction_toggles sample_host sample_api "42" (sample_world "7")
               sample_user eq_refl ltac:(repeat split; done) ltac:(vm_compute; lia)).
    reflexivity.
Defined.
